(** * Localiser: a shallow embedding of [src/index.js]

    The program is one class, [Localiser], whose [run] method walks the
    matrix of (language, namespace) pairs, asks an external service for a
    translation of every source file, writes the answers and keeps two
    groups of counters.  The embedding keeps the shape of the source:

    - the instance fields that change ([stats]) together with the parts
      of the outside world the methods touch (the file system, the
      requests sent to the service, the console) form the [World];
    - every method is a function in a small state monad with the ways a
      JavaScript method has of not returning: a thrown exception,
      [process.exit] and an awaited promise that never settles;
    - what the user and the outside world decide (the typed answer or the
      end of the input, the replies of the service, which writes and
      which directories fail) is an [Env];
    - Node's [path] module and the string built-ins [trim] and
      [toLowerCase] are interfaces ([PathModule], [StringModule]). *)

From Stdlib Require Import ZArith Ascii String List Bool Lia.
From stdpp Require Import base option gmap strings list fin_maps.

Set Warnings "-register-all".
Local Open Scope string_scope.

(** ** Strings *)

(** [String.prototype.endsWith]: [suffix] is one of the tails of [s]. *)
Fixpoint endsWith (s suffix : string) : bool :=
  String.eqb s suffix
  || match s with
     | EmptyString => false
     | String _ rest => endsWith rest suffix
     end.

(** [String.prototype.startsWith]. *)
Fixpoint startsWith (s pre : string) : bool :=
  match pre, s with
  | EmptyString, _ => true
  | String a pre', String b s' => Ascii.eqb a b && startsWith s' pre'
  | String _ _, EmptyString => false
  end.

Fixpoint dropChars (n : nat) (s : string) : string :=
  match n, s with
  | O, _ => s
  | S n', String _ s' => dropChars n' s'
  | S _, EmptyString => EmptyString
  end.

(** [s.replace(pattern, replacement)] with a string pattern: only the first
    occurrence is replaced. *)
Fixpoint replaceFirst (pattern replacement s : string) : string :=
  if startsWith s pattern
  then replacement ++ dropChars (String.length pattern) s
  else match s with
       | EmptyString => EmptyString
       | String c rest => String c (replaceFirst pattern replacement rest)
       end.

(** [Array.prototype.join]. *)
Definition joinWith (sep : string) (items : list string) : string :=
  String.concat sep items.

(** [Array.prototype.includes] on an array of strings. *)
Definition includes (items : list string) (x : string) : bool :=
  existsb (String.eqb x) items.

(** ** The string built-ins [trim] and [toLowerCase]

    [String.prototype.trim] and [String.prototype.toLowerCase] belong to
    the language, not to the repository: the methods below are written
    against this interface.  The one law it carries, that trimming a
    trimmed string changes nothing, holds of the built-in. *)
Class StringModule := {
  trim : string -> string;
  toLowerCase : string -> string;
  trim_idempotent : forall s, trim (trim s) = trim s
}.

(** What the two built-ins do on ASCII text. *)
Definition lowerAscii (c : ascii) : ascii :=
  let n := nat_of_ascii c in
  if (65 <=? n)%nat && (n <=? 90)%nat then ascii_of_nat (n + 32) else c.

Fixpoint asciiToLowerCase (s : string) : string :=
  match s with
  | EmptyString => EmptyString
  | String c rest => String (lowerAscii c) (asciiToLowerCase rest)
  end.

(** ASCII white space and line terminators. *)
Definition isSpace (c : ascii) : bool :=
  let n := nat_of_ascii c in
  (n =? 32)%nat || ((9 <=? n)%nat && (n <=? 13)%nat).

Fixpoint trimStart (s : string) : string :=
  match s with
  | String c rest => if isSpace c then trimStart rest else s
  | EmptyString => EmptyString
  end.

Fixpoint trimEnd (s : string) : string :=
  match s with
  | EmptyString => EmptyString
  | String c rest =>
      match trimEnd rest with
      | EmptyString => if isSpace c then EmptyString else String c EmptyString
      | kept => String c kept
      end
  end.

Definition asciiTrim (s : string) : string := trimEnd (trimStart s).

(** The built-ins restricted to ASCII text: on a string without other
    white space or cased letters they are the built-ins, which is all the
    examples below use. *)
Definition asciiStrings : StringModule.
Proof.
  refine {| trim := asciiTrim; toLowerCase := asciiToLowerCase |}.
  assert (Hend : forall s, trimEnd (trimEnd s) = trimEnd s).
  { induction s as [|c rest IH]; simpl; [reflexivity|].
    destruct (trimEnd rest) as [|k kept] eqn:Hrest.
    - destruct (isSpace c) eqn:Hc; simpl; [reflexivity|]. rewrite Hc. reflexivity.
    - change (trimEnd (String c (String k kept))) with
        (match trimEnd (String k kept) with
         | EmptyString => if isSpace c then EmptyString else String c EmptyString
         | String a b => String c (String a b)
         end).
      rewrite IH. reflexivity. }
  assert (Hstart : forall s, trimStart s = EmptyString
                             \/ exists c rest, trimStart s = String c rest
                                                /\ isSpace c = false).
  { induction s as [|c rest IH]; simpl; [left; reflexivity|].
    destruct (isSpace c) eqn:Hc; [exact IH|].
    right. exists c, rest. split; [reflexivity | exact Hc]. }
  intros s. unfold asciiTrim.
  destruct (Hstart s) as [-> | (c & rest & -> & Hc)]; [reflexivity|].
  assert (Hhead : exists kept, trimEnd (String c rest) = String c kept).
  { simpl. destruct (trimEnd rest) as [|k kept]; [rewrite Hc|]; eauto. }
  destruct Hhead as (kept & Hkept).
  rewrite Hkept. simpl trimStart. rewrite Hc, <- Hkept. apply Hend.
Defined.

(** ** Node's [path] module

    [path.join] and [path.basename] belong to the platform, not to the
    repository: the methods below are written against this interface. *)
Class PathModule := {
  pathJoin : string -> string -> string;
  pathBasename : string -> string
}.

Fixpoint afterLastSlash (acc s : string) : string :=
  match s with
  | EmptyString => acc
  | String c rest =>
      if Ascii.eqb c "/"%char then afterLastSlash rest rest
      else afterLastSlash acc rest
  end.

(** POSIX behaviour of the two functions on paths that are already
    normalised (non-empty segments, no [.] or [..], no trailing slash),
    which is all the examples below use. *)
Definition posixPath : PathModule := {|
  pathJoin d n := d ++ "/" ++ n;
  pathBasename p := afterLastSlash p p
|}.

(** ** JSON values *)

Inductive Json :=
| JNull
| JBool (b : bool)
| JNumber (literal : string)
| JString (s : string)
| JArray (items : list Json)
| JObject (members : list (string * Json)).

(** [Object.keys(v).length]; [Object.keys(null)] throws a [TypeError],
    primitives other than strings have no own keys, a string has one key
    per code unit, an array one per element.  [members] lists the own keys
    of an object, each once. *)
Definition objectKeysLength (v : Json) : option nat :=
  match v with
  | JNull => None
  | JBool _ | JNumber _ => Some 0%nat
  | JString s => Some (String.length s)
  | JArray items => Some (length items)
  | JObject members => Some (length members)
  end.

(** ** Configuration, options, statistics *)

(** [localiser.json]. *)
Record Config := {
  directory : string;
  sourceLanguage : string;
  languages : list string;
  namespaces : list string
}.

(** [program.opts()]: [--language] defaults to the empty string,
    [--namespace] is absent or the trimmed pieces of its argument. *)
Record Options := {
  language : string;
  namespace : option (list string);
  config : string
}.

(** The [--namespace] argument parser of [initializeCLI]. *)
Fixpoint splitComma (cur s : string) : list string :=
  match s with
  | EmptyString => [cur]
  | String c rest =>
      if Ascii.eqb c ","%char then cur :: splitComma EmptyString rest
      else splitComma (cur ++ String c EmptyString) rest
  end.

Definition parseNamespaceOption {strings : StringModule} (value : string) : list string :=
  map trim (splitComma EmptyString value).

Record Counters := { total : nat; completed : nat; failed : nat }.

Record Stats := { languageStats : Counters; namespaceStats : Counters }.

Definition zeroCounters : Counters := {| total := 0; completed := 0; failed := 0 |}.

Definition setTotal (n : nat) (c : Counters) : Counters :=
  {| total := n; completed := completed c; failed := failed c |}.

Definition bumpCompleted (c : Counters) : Counters :=
  {| total := total c; completed := S (completed c); failed := failed c |}.

Definition bumpFailed (c : Counters) : Counters :=
  {| total := total c; completed := completed c; failed := S (failed c) |}.

(** ** The world the methods act on *)

(** What [fs.readJson] finds at a path: a JSON document, or something it
    cannot read as one (it throws). *)
Inductive FileData :=
| Unreadable
| Doc (content : Json).

(** The two holes of the template of [buildTranslationPrompt]; the text of
    the prompt is a function of them. *)
Record Prompt := { promptLanguage : string; promptInput : Json }.

(** How one call of [openai.chat.completions.create], followed by
    [JSON.parse] of the trimmed content, ends. *)
Inductive ApiResult :=
| RequestFailed (message : string)
| Unparsable (message : string)
| Reply (translated : Json).

(** Everything decided outside the program: the replies of the service
    (it sees how many requests came before, so it may answer the same
    prompt differently), the line typed at the prompt ([None] when the
    input ends without one), the paths at which a write fails, the
    directories that cannot be made for a reason other than a file
    standing in their place (a file in place of a parent directory,
    missing permissions, a full disk), and what reading the
    configuration file gives. *)
Record Env := {
  service : nat -> Prompt -> ApiResult;
  answer : option string;
  writeFails : string -> bool;
  ensureDirFails : string -> bool;
  configFile : string -> Config + string
}.

(** [fs] holds the regular files; [ensured] lists the directories
    [fs.ensureDir] has been asked for and has made sure of. *)
Record World := {
  stats : Stats;
  fs : gmap string FileData;
  requests : list Prompt;
  console : list string;
  ensured : list string
}.

(** [new Localiser()] in a given outside world. *)
Definition newLocaliser (files : gmap string FileData) : World := {|
  stats := {| languageStats := zeroCounters; namespaceStats := zeroCounters |};
  fs := files;
  requests := [];
  console := [];
  ensured := []
|}.

Definition withStats (f : Stats -> Stats) (w : World) : World :=
  {| stats := f (stats w); fs := fs w; requests := requests w; console := console w;
     ensured := ensured w |}.

Definition onLanguages (f : Counters -> Counters) (s : Stats) : Stats :=
  {| languageStats := f (languageStats s); namespaceStats := namespaceStats s |}.

Definition onNamespaces (f : Counters -> Counters) (s : Stats) : Stats :=
  {| languageStats := languageStats s; namespaceStats := f (namespaceStats s) |}.

Definition writeFile (p : string) (d : FileData) (w : World) : World :=
  {| stats := stats w; fs := <[p := d]> (fs w); requests := requests w; console := console w;
     ensured := ensured w |}.

Definition sent (p : Prompt) (w : World) : World :=
  {| stats := stats w; fs := fs w; requests := p :: requests w; console := console w;
     ensured := ensured w |}.

Definition printed (line : string) (w : World) : World :=
  {| stats := stats w; fs := fs w; requests := requests w; console := line :: console w;
     ensured := ensured w |}.

Definition madeSure (dir : string) (w : World) : World :=
  {| stats := stats w; fs := fs w; requests := requests w; console := console w;
     ensured := dir :: ensured w |}.

(** ** Control: return, throw, exit, never settle

    An awaited promise that never settles ([Unsettled]) leaves nothing
    after it to run: Node ends the process, with status 0, once nothing
    is pending. *)

Inductive Outcome (A : Type) :=
| Returned (a : A) (w : World)
| Thrown (error : string) (w : World)
| Exited (code : Z) (w : World)
| Unsettled (w : World).

Arguments Returned {A} a w.
Arguments Thrown {A} error w.
Arguments Exited {A} code w.
Arguments Unsettled {A} w.

Definition M (A : Type) : Type := World -> Outcome A.

Definition ret {A} (a : A) : M A := fun w => Returned a w.

Definition bind {A B} (m : M A) (k : A -> M B) : M B :=
  fun w =>
    match m w with
    | Returned a w' => k a w'
    | Thrown e w' => Thrown e w'
    | Exited c w' => Exited c w'
    | Unsettled w' => Unsettled w'
    end.

Definition throw {A} (e : string) : M A := fun w => Thrown e w.

Definition exit {A} (code : Z) : M A := fun w => Exited code w.

(** [await] of a promise that never settles. *)
Definition never {A} : M A := fun w => Unsettled w.

(** [try { body } catch (e) { handler(e) }]. *)
Definition tryCatch {A} (body : M A) (handler : string -> M A) : M A :=
  fun w =>
    match body w with
    | Thrown e w' => handler e w'
    | other => other
    end.

Definition modify (f : World -> World) : M unit := fun w => Returned tt (f w).

Definition gets {A} (f : World -> A) : M A := fun w => Returned (f w) w.

Declare Scope js_scope.
Delimit Scope js_scope with js.
Notation "'do' x <- m ; k" := (bind m (fun x => k))
  (at level 10, x name, m at level 100, k at level 200) : js_scope.
Notation "'exec' m ; k" := (bind m (fun _ => k))
  (at level 10, m at level 100, k at level 200) : js_scope.
Local Open Scope js_scope.

(** [for (const x of items) body(x)]. *)
Fixpoint forEach {A} (items : list A) (body : A -> M unit) : M unit :=
  match items with
  | [] => ret tt
  | x :: rest => exec body x; forEach rest body
  end.

(** The world an outcome ends in. *)
Definition finalWorld {A} (o : Outcome A) : World :=
  match o with
  | Returned _ w | Thrown _ w | Exited _ w | Unsettled w => w
  end.

(** ** The numbers of the progress bar

    [Math.round((current / total) * barLength)] on two counters: [NaN]
    for 0/0, [Infinity] for a positive counter over 0, and otherwise the
    quotient rounded to the nearest integer, halves upwards.  The model
    rounds the exact quotient: the double-precision product can differ
    from it only in its last bits, which changes the rounded value in no
    case that decides whether a bar can be built (at 31/30, the smallest
    ratio that rounds to 16, the product is above 15.5 in doubles as
    well). *)
Inductive JsNumber :=
| NaN
| PosInfinity
| NegInfinity
| Finite (z : Z).

Definition barLength : Z := 15.

Definition roundedShare (current total : nat) (scale : Z) : JsNumber :=
  match total, current with
  | O, O => NaN
  | O, S _ => PosInfinity
  | S _, _ =>
      Finite ((2 * Z.of_nat current * scale + Z.of_nat total) / (2 * Z.of_nat total))
  end.

(** [scale - x]. *)
Definition minusFrom (scale : Z) (x : JsNumber) : JsNumber :=
  match x with
  | NaN => NaN
  | PosInfinity => NegInfinity
  | NegInfinity => PosInfinity
  | Finite z => Finite (scale - z)
  end.

(** The length of [c.repeat(count)]: [NaN] counts as 0, a negative or
    infinite count throws a [RangeError] ([None]). *)
Definition repeatCount (count : JsNumber) : option nat :=
  match count with
  | NaN => Some 0%nat
  | PosInfinity | NegInfinity => None
  | Finite z => if (z <? 0)%Z then None else Some (Z.to_nat z)
  end.

(** The message of the [RangeError] thrown by [String.prototype.repeat]
    (the engine appends the offending count). *)
Definition rangeError : string := "Invalid count value".

(** Filled and empty cells of one bar. *)
Definition progressBar (current total : nat) : option (nat * nat) :=
  let filledLength := roundedShare current total barLength in
  match repeatCount filledLength, repeatCount (minusFrom barLength filledLength) with
  | Some filled, Some empty => Some (filled, empty)
  | _, _ => None
  end.

(** ** The methods of [Localiser] *)

(** The result of [validateNamespaces]. *)
Record Validation := { valid : list string; errors : list string }.

Section Methods.
Context {path : PathModule} {strings : StringModule}.
Variable env : Env.

(** [log]: the colour tags are rendered for the terminal only; the
    console keeps the text as it was passed. *)
Definition log (text : string) : M unit := modify (printed text).

(** [loadProjectConfig]: an unreadable file is fatal. *)
Definition loadProjectConfig (configPath : string) : M Config :=
  match configFile env configPath with
  | inl loaded => ret loaded
  | inr message => exec log ("Error loading project config: " ++ message); exit 1
  end.

(** [showCombinedProgress].  The line written to the terminal is not
    kept; building either bar throws when its filled length is above
    [barLength] or infinite. *)
Definition showCombinedProgress (currentLanguage currentNamespace : string) : M unit :=
  do langCurrent <- gets (fun w => completed (languageStats (stats w)));
  do langTotal <- gets (fun w => total (languageStats (stats w)));
  do nsCurrent <- gets (fun w => completed (namespaceStats (stats w)));
  do nsTotal <- gets (fun w => total (namespaceStats (stats w)));
  match progressBar langCurrent langTotal, progressBar nsCurrent nsTotal with
  | Some _, Some _ => ret tt
  | _, _ => throw rangeError
  end.

Definition buildTranslationPrompt (jsonObject : Json) (targetLang : string) : Prompt :=
  {| promptLanguage := targetLang; promptInput := jsonObject |}.

(** [translateJson]: one request; both [catch] blocks log and fall
    through to [return {}]. *)
Definition translateJson (jsonObject : Json) (targetLang : string) : M Json :=
  let prompt := buildTranslationPrompt jsonObject targetLang in
  do earlier <- gets (fun w => length (requests w));
  exec modify (sent prompt);
  match service env earlier prompt with
  | Reply translatedJson => ret translatedJson
  | Unparsable message =>
      exec log ("<red>Failed to parse translation response: " ++ message ++ "</red>");
      ret (JObject [])
  | RequestFailed message =>
      exec log ("<red>Translation error for " ++ targetLang ++ ": " ++ message ++ "</red>");
      ret (JObject [])
  end.

Definition getFilePath (dir name : string) : string :=
  let filePath := pathJoin dir name in
  if endsWith filePath ".json" then filePath else filePath ++ ".json".

(** [promptUser]: the typed line, trimmed and lower-cased. The promise is
    resolved in the callback of [rl.question] only: when the input ends
    without a line it never settles. *)
Definition promptUser (question : string) : M string :=
  exec modify (printed question);
  match answer env with
  | Some typed => ret (toLowerCase (trim typed))
  | None => never
  end.

Fixpoint classifyNamespaces (configured inputNamespaces : list string) : Validation :=
  match inputNamespaces with
  | [] => {| valid := []; errors := [] |}
  | ns :: rest =>
      let later := classifyNamespaces configured rest in
      if includes configured ns
      then {| valid := ns :: valid later; errors := errors later |}
      else {| valid := valid later; errors := ns :: errors later |}
  end.

Definition validateNamespaces (cfg : Config) (inputNamespaces : option (list string)) : Validation :=
  match inputNamespaces with
  | None | Some [] => {| valid := namespaces cfg; errors := [] |}
  | Some requested => classifyNamespaces (namespaces cfg) requested
  end.

(** The message of the error of a rejected [fs.ensureDir] (the code and
    the path that the library puts in it are left out). *)
Definition ensureDirError : string := "ensureDir failed".

(** [fs.ensureDir]: rejects when a regular file stands at the path
    ([EEXIST]) or the directory cannot be made for another reason. *)
Definition ensureDir (dir : string) : M unit :=
  do occupied <- gets (fun w => bool_decide (is_Some (fs w !! dir)));
  if occupied || ensureDirFails env dir then throw ensureDirError
  else modify (madeSure dir).

(** [fs.readJson]. *)
Definition readJson (p : string) : M Json :=
  do found <- gets (fun w => fs w !! p);
  match found with
  | Some (Doc content) => ret content
  | _ => throw "readJson failed"
  end.

(** [fs.writeJson]. *)
Definition writeJson (p : string) (content : Json) : M unit :=
  if writeFails env p then throw "writeJson failed"
  else modify (writeFile p (Doc content)).

(** [Object.keys(v).length > 0]. *)
Definition hasKeys (v : Json) : M bool :=
  match objectKeysLength v with
  | Some n => ret (0 <? n)%nat
  | None => throw "TypeError: Cannot convert undefined or null to object"
  end.

Definition processNamespaceFile (sourceLanguageDir targetLanguageDir file : string) : M bool :=
  let sourceFilePath := getFilePath sourceLanguageDir file in
  let targetFilePath := getFilePath targetLanguageDir file in
  do present <- gets (fun w => bool_decide (is_Some (fs w !! sourceFilePath)));
  if negb present then ret false
  else
    tryCatch
      (do sourceContent <- readJson sourceFilePath;
       do translatedContent <- translateJson sourceContent (pathBasename targetLanguageDir);
       do nonEmpty <- hasKeys translatedContent;
       if nonEmpty
       then exec writeJson targetFilePath translatedContent; ret true
       else ret false)
      (fun _ => ret false).

(** The second half of one turn of the loop of [processLocale]: the
    file is processed and counted. *)
Definition countNamespaceFile (sourceLanguageDir targetLanguageDir file : string) : M unit :=
  do success <- processNamespaceFile sourceLanguageDir targetLanguageDir file;
  if success then modify (withStats (onNamespaces bumpCompleted))
  else modify (withStats (onNamespaces bumpFailed)).

(** One turn of the loop of [processLocale]. *)
Definition processLocaleFile (sourceLanguageDir targetLanguageDir targetLanguage file : string) : M unit :=
  let namespaceName := replaceFirst ".json" EmptyString file in
  exec showCombinedProgress targetLanguage namespaceName;
  countNamespaceFile sourceLanguageDir targetLanguageDir file.

(** The namespaces [processLocale] walks: its argument when it is a
    non-empty array, the configured ones otherwise. *)
Definition localeNamespaces (cfg : Config) (requested : option (list string)) : list string :=
  match requested with
  | Some (ns :: rest) => ns :: rest
  | _ => namespaces cfg
  end.

(** [processLocale]. The [await fs.ensureDir] is outside every [try]: its
    rejection leaves [processLocale], and [run], as a thrown error. *)
Definition processLocale (cfg : Config) (sourceLanguage' targetLanguage : string)
    (requested : option (list string)) : M bool :=
  let sourceLanguageDir := pathJoin (directory cfg) sourceLanguage' in
  let targetLanguageDir := pathJoin (directory cfg) targetLanguage in
  let validNamespaces := localeNamespaces cfg requested in
  exec ensureDir targetLanguageDir;
  let namespaceFiles := map (fun ns => ns ++ ".json") validNamespaces in
  exec forEach namespaceFiles
         (processLocaleFile sourceLanguageDir targetLanguageDir targetLanguage);
  gets (fun w => Nat.eqb (completed (namespaceStats (stats w)))
                         (total (namespaceStats (stats w)))).

(** One turn of the loop over the languages in [run]. *)
Definition translateLanguage (cfg : Config) (opts : Options) (lang : string) : M unit :=
  if negb (includes (languages cfg) lang)
  then
    exec log ("<red>Unsupported language: " ++ lang ++ "</red>");
    modify (withStats (onLanguages bumpFailed))
  else
    do success <- processLocale cfg (sourceLanguage cfg) lang (namespace opts);
    exec (if success then modify (withStats (onLanguages bumpCompleted))
          else modify (withStats (onLanguages bumpFailed)));
    showCombinedProgress lang "completed".

(** The languages [run] walks. *)
Definition languagesToTranslate (cfg : Config) (opts : Options) : list string :=
  if String.eqb (language opts) EmptyString
  then List.filter (fun lang => negb (String.eqb lang (sourceLanguage cfg))) (languages cfg)
  else [language opts].

(** The confirmation gate of [run]. *)
Definition confirmInvalid (cfg : Config) (invalidNamespaces : list string) : M unit :=
  match invalidNamespaces with
  | [] => ret tt
  | _ :: _ =>
      exec log ("<red>⚠️  Invalid namespaces: " ++ joinWith ", " invalidNamespaces ++ "</red>");
      exec log ("<yellow>Available namespaces: " ++ joinWith ", " (namespaces cfg) ++ "</yellow>");
      do continueChoice <- promptUser "❓ Continue with valid namespaces only? (y/n): ";
      if negb (String.eqb continueChoice "y") && negb (String.eqb continueChoice "yes")
      then exec log "<red>❌ Operation cancelled by user.</red>"; exit 0
      else log "<green>✅ Continuing with valid namespaces...</green>"
  end.

(** [run], for the options [initializeCLI] parsed. *)
Definition run (opts : Options) : M unit :=
  do cfg <- loadProjectConfig (config opts);
  let targets := languagesToTranslate cfg opts in
  let validation := validateNamespaces cfg (namespace opts) in
  let validNamespaces := valid validation in
  let invalidNamespaces := errors validation in
  exec modify (withStats (onLanguages (setTotal (length targets))));
  exec modify (withStats (onNamespaces (setTotal (length validNamespaces))));
  exec log "<cyan>🚀 Starting translation process...</cyan>";
  exec log ("<blue>📝 Source:</blue> <bright>" ++ sourceLanguage cfg
            ++ "</bright> <yellow>→</yellow> <cyan>Target:</cyan> <green>"
            ++ joinWith ", " targets ++ "</green>");
  exec confirmInvalid cfg invalidNamespaces;
  exec log ("<magenta>📁 Namespaces:</magenta> <green>"
            ++ joinWith ", " validNamespaces ++ "</green>");
  exec log EmptyString;
  exec forEach targets (translateLanguage cfg opts);
  exec log EmptyString;
  log "<green>🎉 Translation process completed!</green>".

(** The last lines of the script: an error that escapes [run] is logged
    and the process exits with status 1. When [run] never settles the
    handler never runs. *)
Definition main (opts : Options) (files : gmap string FileData) : Outcome unit :=
  match run opts (newLocaliser files) with
  | Thrown e w => Exited 1 (printed ("<red>Unhandled error: " ++ e ++ "</red>") w)
  | other => other
  end.

End Methods.

(** ** Vocabulary of the properties *)

(** Splits a conjunction into its parts, and nothing else. *)
Ltac conjs := repeat match goal with |- _ /\ _ => split end.

(** The property of the specification: every unit counted once. *)
Definition balanced (c : Counters) : Prop := completed c + failed c = total c.

(** What [k] processed files do to the statistics: the language counters
    and the namespace total stay, the two namespace counters grow by [k]
    together. *)
Definition namespacesCounted (k : nat) (before after : Stats) : Prop :=
  total (namespaceStats after) = total (namespaceStats before)
  /\ completed (namespaceStats before) <= completed (namespaceStats after)
  /\ failed (namespaceStats before) <= failed (namespaceStats after)
  /\ completed (namespaceStats after) + failed (namespaceStats after)
     = completed (namespaceStats before) + failed (namespaceStats before) + k.

Definition counted (k : nat) (before after : Stats) : Prop :=
  languageStats after = languageStats before /\ namespacesCounted k before after.

(** What [k] walked languages do to the language counters. *)
Definition languagesCounted (k : nat) (before after : Stats) : Prop :=
  total (languageStats after) = total (languageStats before)
  /\ completed (languageStats before) <= completed (languageStats after)
  /\ failed (languageStats before) <= failed (languageStats after)
  /\ completed (languageStats after) + failed (languageStats after)
     = completed (languageStats before) + failed (languageStats before) + k.

(** Two worlds that differ in the console only. *)
Definition quiet (w w' : World) : Prop :=
  stats w' = stats w /\ fs w' = fs w /\ requests w' = requests w.

(** The number of occurrences of a character. *)
Fixpoint countChar (c : ascii) (s : string) : nat :=
  match s with
  | EmptyString => 0
  | String d rest => (if Ascii.eqb d c then 1 else 0) + countChar c rest
  end.

(** The only change to the files between two worlds is that some paths
    ending in [.json] now hold a JSON document. *)
Definition writesJsonOnly (w w' : World) : Prop :=
  forall p,
    fs w' !! p = fs w !! p
    \/ (endsWith p ".json" = true /\ exists content, fs w' !! p = Some (Doc content)).

(** Between two worlds the namespace counters have grown, and the
    requests sent in between are at least the newly completed files and
    at most the newly counted ones. *)
Definition requestsAccounted (w w' : World) : Prop :=
  completed (namespaceStats (stats w)) <= completed (namespaceStats (stats w'))
  /\ failed (namespaceStats (stats w)) <= failed (namespaceStats (stats w'))
  /\ exists sentNow,
      length (requests w') = length (requests w) + sentNow
      /\ completed (namespaceStats (stats w')) - completed (namespaceStats (stats w))
         <= sentNow
      /\ sentNow + completed (namespaceStats (stats w)) + failed (namespaceStats (stats w))
         <= completed (namespaceStats (stats w')) + failed (namespaceStats (stats w')).

(** At most [k] languages have been counted between two states. *)
Definition languagesAtMost (k : nat) (before after : Stats) : Prop :=
  total (languageStats after) = total (languageStats before)
  /\ completed (languageStats before) <= completed (languageStats after)
  /\ failed (languageStats before) <= failed (languageStats after)
  /\ completed (languageStats after) + failed (languageStats after)
     <= completed (languageStats before) + failed (languageStats before) + k.

(** The files of a pass whose source does not exist in [files]. *)
Definition missingSources {path : PathModule}
    (files : gmap string FileData) (dir : string) (names : list string) : list string :=
  List.filter (fun file => match files !! getFilePath dir file with
                           | None => true
                           | Some _ => false
                           end) names.

(** The same outside world with something else at the prompt. *)
Definition withAnswer (typed : option string) (env : Env) : Env := {|
  service := service env;
  answer := typed;
  writeFails := writeFails env;
  ensureDirFails := ensureDirFails env;
  configFile := configFile env
|}.

(** Unfolds the plumbing of the monad, and nothing else. *)
Ltac js :=
  cbv beta iota delta
    [bind gets modify ret throw exit never tryCatch log readJson hasKeys writeJson].

(** ** Worked inputs *)

Module Examples.

#[local] Existing Instance asciiStrings.

Definition greeting : Json := JObject [("title", JString "Hello")].

(** A service that answers every prompt with its input. *)
Definition echo (earlier : nat) (p : Prompt) : ApiResult := Reply (promptInput p).


(** A service that is down. *)
Definition offline (earlier : nat) (p : Prompt) : ApiResult :=
  RequestFailed "Connection error.".

Definition project (langs spaces : list string) : Config := {|
  directory := "locales";
  sourceLanguage := "en";
  languages := langs;
  namespaces := spaces
|}.

Definition world (cfg : Config) (replies : nat -> Prompt -> ApiResult) (typed : string) : Env := {|
  service := replies;
  answer := Some typed;
  writeFails := fun _ => false;
  ensureDirFails := fun _ => false;
  configFile := fun _ => inl cfg
|}.

(** The same with the input at its end: nothing is typed at the prompt. *)
Definition atEndOfInput (cfg : Config) : Env := withAnswer None (world cfg echo EmptyString).

Definition plain : Options :=
  {| language := EmptyString; namespace := None; config := "localiser.json" |}.

Definition only (lang : string) : Options :=
  {| language := lang; namespace := None; config := "localiser.json" |}.

Definition picking (value : string) : Options :=
  {| language := EmptyString; namespace := Some (parseNamespaceOption value);
     config := "localiser.json" |}.

Definition homeOnly : gmap string FileData :=
  {[ "locales/en/home.json" := Doc greeting ]}.

Definition homeAndExtra : gmap string FileData :=
  <[ "locales/en/extra.json" := Doc greeting ]> homeOnly.

(** [en] to [fr], one namespace. *)
Definition oneTarget : Config := project ["en"; "fr"] ["home"].

(** [en] to [fr] and [de], one namespace. *)
Definition twoTargets : Config := project ["en"; "fr"; "de"] ["home"].

(** [en] to [fr], [de] and [it], one namespace. *)
Definition threeTargets : Config := project ["en"; "fr"; "de"; "it"] ["home"].

(** [en] to [fr], [de] and [it], two namespaces. *)
Definition threeTargetsTwoNamespaces : Config :=
  project ["en"; "fr"; "de"; "it"] ["home"; "about"].

(** A source file that is not JSON. *)
Definition brokenSource : gmap string FileData :=
  {[ "locales/en/home.json" := Unreadable ]}.

(** A service whose reply is JSON [null]. *)
Definition nullReply (earlier : nat) (p : Prompt) : ApiResult := Reply JNull.

(** An outside world in which the configuration file cannot be read. *)
Definition unconfigured : Env := {|
  service := echo;
  answer := Some EmptyString;
  writeFails := fun _ => false;
  ensureDirFails := fun _ => false;
  configFile := fun _ => inr "ENOENT: no such file or directory"
|}.

(** An outside world in which no file can be written. *)
Definition readOnly (cfg : Config) : Env := {|
  service := echo;
  answer := Some EmptyString;
  writeFails := fun _ => true;
  ensureDirFails := fun _ => false;
  configFile := fun _ => inl cfg
|}.

(** The world of a finished [processNamespaceFile] call whose target
    already held something else. *)
Definition stale : World :=
  newLocaliser (<[ "locales/fr/home.json" := Doc (JString "old") ]> homeOnly).

End Examples.

(** * Properties *)

(** ** Strings and paths *)

Lemma endsWith_refl s : endsWith s s = true.
Proof. destruct s; simpl; rewrite ?Ascii.eqb_refl, ?String.eqb_refl; reflexivity. Qed.

Lemma endsWith_append s suffix : endsWith (s ++ suffix) suffix = true.
Proof.
  induction s as [|c s IH]; simpl.
  - apply endsWith_refl.
  - rewrite IH. apply orb_true_r.
Qed.

Section PathProperties.
Context {path : PathModule}.

(** C10. [getFilePath] always returns a path ending in [.json]; a joined
    path that already ends in [.json] is returned as it is; and the
    extension rule applied to the result leaves it unchanged. *)
Theorem getFilePath_json_extension (dir name : string) :
  endsWith (getFilePath dir name) ".json" = true
  /\ (endsWith (pathJoin dir name) ".json" = true ->
      getFilePath dir name = pathJoin dir name)
  /\ (if endsWith (getFilePath dir name) ".json"
      then getFilePath dir name
      else getFilePath dir name ++ ".json") = getFilePath dir name.
Proof.
  assert (E : endsWith (getFilePath dir name) ".json" = true).
  { unfold getFilePath.
    destruct (endsWith (pathJoin dir name) ".json") eqn:Hjoined.
    - exact Hjoined.
    - apply endsWith_append. }
  split; [exact E|]. split.
  - intros Hjoined. unfold getFilePath. rewrite Hjoined. reflexivity.
  - rewrite E. reflexivity.
Qed.

End PathProperties.


Lemma counted_zero s : counted 0 s s.
Proof. unfold counted, namespacesCounted. conjs; try reflexivity; lia. Qed.

Lemma counted_trans j k s1 s2 s3 :
  counted j s1 s2 -> counted k s2 s3 -> counted (j + k) s1 s3.
Proof.
  unfold counted, namespacesCounted.
  intros (L1 & T1 & C1 & F1 & S1) (L2 & T2 & C2 & F2 & S2).
  conjs; try congruence; lia.
Qed.

(** ** Counters and the progress bar *)

Lemma progressBar_within (current all : nat) :
  current <= all -> is_Some (progressBar current all).
Proof.
  intros Hle. unfold progressBar, roundedShare, barLength.
  destruct all as [|t].
  - assert (current = 0)%nat as -> by lia. simpl. eauto.
  - set (q := ((2 * Z.of_nat current * 15 + Z.of_nat (S t)) / (2 * Z.of_nat (S t)))%Z).
    assert (Hq : (0 <= q <= 15)%Z).
    { subst q. split.
      - apply Z.div_pos; lia.
      - apply Z.lt_succ_r. apply Z.div_lt_upper_bound; lia. }
    simpl. destruct (Z.ltb_spec q 0); [lia|].
    destruct (Z.ltb_spec (15 - q) 0); [lia|]. eauto.
Qed.

(** Once the namespace counter is [31/30] of its total or more, the bar
    cannot be built. *)
Lemma progressBar_overflow (current all : nat) :
  0 < all -> 31 * all <= 30 * current -> progressBar current all = None.
Proof.
  intros Hpos Hover. unfold progressBar, roundedShare, barLength.
  destruct all as [|t]; [lia|].
  set (q := ((2 * Z.of_nat current * 15 + Z.of_nat (S t)) / (2 * Z.of_nat (S t)))%Z).
  assert (Hq : (16 <= q)%Z).
  { subst q. apply Z.div_le_lower_bound; lia. }
  simpl. destruct (Z.ltb_spec q 0); [reflexivity|].
  destruct (Z.ltb_spec (15 - q) 0); [reflexivity|lia].
Qed.

Section Behaviour.
Context {path : PathModule} {strings : StringModule}.
Variable env : Env.

Lemma showCombinedProgress_cases lang ns w :
  showCombinedProgress lang ns w = Returned tt w
  \/ showCombinedProgress lang ns w = Thrown rangeError w.
Proof.
  unfold showCombinedProgress, bind, gets. simpl.
  destruct (progressBar _ _); [destruct (progressBar _ _)|]; auto.
Qed.

Lemma showCombinedProgress_within lang ns w :
  completed (languageStats (stats w)) <= total (languageStats (stats w)) ->
  completed (namespaceStats (stats w)) <= total (namespaceStats (stats w)) ->
  showCombinedProgress lang ns w = Returned tt w.
Proof.
  intros Hl Hn. unfold showCombinedProgress, bind, gets. simpl.
  destruct (progressBar_within _ _ Hl) as [? ->].
  destruct (progressBar_within _ _ Hn) as [? ->]. reflexivity.
Qed.

Lemma showCombinedProgress_overflow lang ns w :
  0 < total (namespaceStats (stats w)) ->
  31 * total (namespaceStats (stats w)) <= 30 * completed (namespaceStats (stats w)) ->
  showCombinedProgress lang ns w = Thrown rangeError w.
Proof.
  intros Hpos Hover. unfold showCombinedProgress, bind, gets. simpl.
  rewrite (progressBar_overflow _ _ Hpos Hover).
  destruct (progressBar _ _); reflexivity.
Qed.

(** ** The translation adapter *)

(** [translateJson] always returns, after exactly one request, and
    touches neither the files nor the counters. *)
Lemma translateJson_returns jsonObject targetLang w :
  exists translated w',
    translateJson env jsonObject targetLang w = Returned translated w'
    /\ stats w' = stats w /\ fs w' = fs w
    /\ requests w' = buildTranslationPrompt jsonObject targetLang :: requests w.
Proof.
  unfold translateJson, bind, gets, modify, log, ret. simpl.
  destruct (service env _ _); simpl; eauto 10.
Qed.

Lemma translateJson_writeFile jsonObject targetLang w translated w1 p d :
  translateJson env jsonObject targetLang w = Returned translated w1 ->
  translateJson env jsonObject targetLang (writeFile p d w)
  = Returned translated (writeFile p d w1).
Proof.
  unfold translateJson, bind, gets, modify, log, ret. simpl.
  destruct (service env _ _); simpl; intros [= <- <-]; reflexivity.
Qed.

(** C6. When the request fails or the reply is not JSON, [translateJson]
    returns the empty mapping to its caller (it does not throw), after
    writing one error line to the console and sending exactly one request;
    files and counters are as before. *)
Theorem translateJson_degrades_silently (jsonObject : Json) (targetLang : string) (w : World) :
  (exists message,
      service env (length (requests w)) (buildTranslationPrompt jsonObject targetLang)
      = RequestFailed message
      \/ service env (length (requests w)) (buildTranslationPrompt jsonObject targetLang)
         = Unparsable message) ->
  exists line w',
    translateJson env jsonObject targetLang w = Returned (JObject []) w'
    /\ console w' = line :: console w
    /\ startsWith line "<red>" = true
    /\ requests w' = buildTranslationPrompt jsonObject targetLang :: requests w
    /\ fs w' = fs w
    /\ stats w' = stats w.
Proof.
  intros [message [Hfail | Hfail]];
    unfold translateJson, bind, gets, modify, log, ret; simpl; rewrite Hfail; simpl;
    eexists _, _; repeat split; reflexivity.
Qed.

(** ** The file processor *)

(** The three ways through [processNamespaceFile]. *)
Lemma processNamespaceFile_unfold sourceLanguageDir targetLanguageDir file w :
  processNamespaceFile env sourceLanguageDir targetLanguageDir file w =
  match fs w !! getFilePath sourceLanguageDir file with
  | Some (Doc sourceContent) =>
      match translateJson env sourceContent (pathBasename targetLanguageDir) w with
      | Returned translatedContent w1 =>
          match objectKeysLength translatedContent with
          | Some (S _) =>
              if writeFails env (getFilePath targetLanguageDir file)
              then Returned false w1
              else Returned true
                     (writeFile (getFilePath targetLanguageDir file) (Doc translatedContent) w1)
          | _ => Returned false w1
          end
      | other => Returned false (finalWorld other)
      end
  | _ => Returned false w
  end.
Proof.
  unfold processNamespaceFile. js.
  destruct (fs w !! getFilePath sourceLanguageDir file) as [[|sourceContent]|] eqn:Hsrc;
    simpl; rewrite ?Hsrc; try reflexivity.
  destruct (translateJson_returns sourceContent (pathBasename targetLanguageDir) w)
    as (translated & w1 & -> & _).
  destruct (objectKeysLength translated) as [[|n]|]; simpl; try reflexivity.
  destruct (writeFails env _); reflexivity.
Qed.

(** [processNamespaceFile] always returns, and leaves the counters alone. *)
Lemma processNamespaceFile_returns sourceLanguageDir targetLanguageDir file w :
  exists success w',
    processNamespaceFile env sourceLanguageDir targetLanguageDir file w = Returned success w'
    /\ stats w' = stats w.
Proof.
  rewrite processNamespaceFile_unfold.
  destruct (fs w !! _) as [[|sourceContent]|]; eauto.
  destruct (translateJson_returns sourceContent (pathBasename targetLanguageDir) w)
    as (translated & w1 & -> & Hstats & _).
  destruct (objectKeysLength translated) as [[|n]|]; eauto.
  destruct (writeFails env _); eauto.
Qed.

Lemma countNamespaceFile_unfold sourceLanguageDir targetLanguageDir file w success w' :
  processNamespaceFile env sourceLanguageDir targetLanguageDir file w = Returned success w' ->
  countNamespaceFile env sourceLanguageDir targetLanguageDir file w
  = Returned tt (withStats (onNamespaces (if success then bumpCompleted else bumpFailed)) w').
Proof.
  intros Hcall. unfold countNamespaceFile. js. rewrite Hcall.
  destruct success; reflexivity.
Qed.

Lemma processLocaleFile_unfold sourceLanguageDir targetLanguageDir targetLanguage file w :
  processLocaleFile env sourceLanguageDir targetLanguageDir targetLanguage file w
  = match showCombinedProgress targetLanguage (replaceFirst ".json" EmptyString file) w with
    | Returned _ _ => countNamespaceFile env sourceLanguageDir targetLanguageDir file w
    | other => other
    end.
Proof.
  unfold processLocaleFile. js.
  destruct (showCombinedProgress_cases targetLanguage (replaceFirst ".json" EmptyString file) w)
    as [-> | ->]; reflexivity.
Qed.


(** C8. When [processNamespaceFile] writes (returns [true]), the files
    afterwards are the files before with the target path bound to the
    adapter's result for the source content, whatever the target held;
    and had the target held any other data, the same call would have left
    the same files. *)
Theorem target_is_overwritten
    (sourceLanguageDir targetLanguageDir file : string) (w w' : World) :
  processNamespaceFile env sourceLanguageDir targetLanguageDir file w = Returned true w' ->
  exists sourceContent translated w1,
    fs w !! getFilePath sourceLanguageDir file = Some (Doc sourceContent)
    /\ translateJson env sourceContent (pathBasename targetLanguageDir) w
       = Returned translated w1
    /\ fs w' = <[getFilePath targetLanguageDir file := Doc translated]> (fs w)
    /\ forall old,
        getFilePath targetLanguageDir file <> getFilePath sourceLanguageDir file ->
        exists w2,
          processNamespaceFile env sourceLanguageDir targetLanguageDir file
            (writeFile (getFilePath targetLanguageDir file) old w)
          = Returned true w2
          /\ fs w2 = fs w'.
Proof.
  rewrite processNamespaceFile_unfold.
  destruct (fs w !! getFilePath sourceLanguageDir file) as [[|sourceContent]|] eqn:Hsource;
    try discriminate.
  destruct (translateJson_returns sourceContent (pathBasename targetLanguageDir) w)
    as (translated & w1 & Hcall & _ & Hfiles & _).
  rewrite Hcall.
  destruct (objectKeysLength translated) as [[|n]|] eqn:Hkeys; try discriminate.
  destruct (writeFails env (getFilePath targetLanguageDir file)) eqn:Hwrite; try discriminate.
  intros [= <-].
  exists sourceContent, translated, w1.
  split; [reflexivity|]. split; [exact Hcall|]. split.
  - cbn [fs writeFile]. rewrite Hfiles. reflexivity.
  - intros old Hother. eexists.
    rewrite processNamespaceFile_unfold. cbn [fs writeFile].
    rewrite lookup_insert_ne, Hsource by exact Hother.
    rewrite (translateJson_writeFile _ _ _ _ _ _ _ Hcall), Hkeys, Hwrite.
    split; [reflexivity|].
    cbn [fs writeFile]. rewrite Hfiles. apply insert_insert_eq.
Qed.

(** ** The loop of [processLocale] *)

Lemma forEach_cons {A} (x : A) (rest : list A) (body : A -> M unit) w :
  forEach (x :: rest) body w
  = match body x w with
    | Returned _ w' => forEach rest body w'
    | Thrown e w' => Thrown e w'
    | Exited c w' => Exited c w'
    | Unsettled w' => Unsettled w'
    end.
Proof. reflexivity. Qed.

Lemma countNamespaceFile_counted sourceLanguageDir targetLanguageDir file w :
  exists w',
    countNamespaceFile env sourceLanguageDir targetLanguageDir file w = Returned tt w'
    /\ counted 1 (stats w) (stats w').
Proof.
  destruct (processNamespaceFile_returns sourceLanguageDir targetLanguageDir file w)
    as (success & w' & Hcall & Hstats).
  eexists. split; [apply (countNamespaceFile_unfold _ _ _ _ _ _ Hcall)|].
  unfold counted, namespacesCounted. simpl. rewrite Hstats.
  destruct success; simpl; conjs; try reflexivity; lia.
Qed.

(** A pass over [files] either counts every file, or stops at a progress
    line that cannot be drawn, having counted fewer. *)
Lemma processLocale_loop sourceLanguageDir targetLanguageDir targetLanguage files :
  forall w,
    (exists w',
        forEach files (processLocaleFile env sourceLanguageDir targetLanguageDir targetLanguage) w
        = Returned tt w'
        /\ counted (length files) (stats w) (stats w'))
    \/ (exists k w',
           forEach files (processLocaleFile env sourceLanguageDir targetLanguageDir targetLanguage) w
           = Thrown rangeError w'
           /\ k < length files
           /\ counted k (stats w) (stats w')).
Proof.
  induction files as [|file files IH]; intros w.
  - left. exists w. split; [reflexivity | apply counted_zero].
  - rewrite forEach_cons, processLocaleFile_unfold.
    destruct (showCombinedProgress_cases targetLanguage (replaceFirst ".json" EmptyString file) w)
      as [-> | ->].
    + destruct (countNamespaceFile_counted sourceLanguageDir targetLanguageDir file w)
        as (w1 & -> & Hone).
      destruct (IH w1) as [(w' & -> & Hrest) | (k & w' & -> & Hk & Hrest)].
      * left. exists w'. split; [reflexivity|].
        apply (counted_trans 1 (length files) _ _ _ Hone Hrest).
      * right. exists (1 + k), w'. split; [reflexivity|]. split; [simpl; lia|].
        apply (counted_trans 1 k _ _ _ Hone Hrest).
    + right. exists 0, w. split; [reflexivity|]. split; [simpl; lia | apply counted_zero].
Qed.

(** With room left under the total, every progress line can be drawn and
    the pass counts every file. *)
Lemma processLocale_loop_within sourceLanguageDir targetLanguageDir targetLanguage files :
  forall w,
    completed (languageStats (stats w)) <= total (languageStats (stats w)) ->
    completed (namespaceStats (stats w)) + failed (namespaceStats (stats w)) + length files
    <= total (namespaceStats (stats w)) ->
    exists w',
      forEach files (processLocaleFile env sourceLanguageDir targetLanguageDir targetLanguage) w
      = Returned tt w'
      /\ counted (length files) (stats w) (stats w').
Proof.
  induction files as [|file files IH]; intros w Hlang Hroom.
  - exists w. split; [reflexivity | apply counted_zero].
  - rewrite forEach_cons, processLocaleFile_unfold.
    rewrite showCombinedProgress_within by (simpl in Hroom; lia).
    destruct (countNamespaceFile_counted sourceLanguageDir targetLanguageDir file w)
      as (w1 & -> & Hone).
    destruct (IH w1) as (w' & -> & Hrest).
    + destruct Hone as (-> & _). exact Hlang.
    + destruct Hone as (_ & -> & _ & _ & Hsum). simpl in Hroom. lia.
    + exists w'. split; [reflexivity|].
      apply (counted_trans 1 (length files) _ _ _ Hone Hrest).
Qed.

(** [fs.ensureDir] makes sure of the directory unless a file stands in its
    place or the outside world refuses; it touches neither the counters,
    nor the files, nor the requests. *)
Lemma ensureDir_cases dir w :
  (fs w !! dir = None /\ ensureDirFails env dir = false
   /\ ensureDir env dir w = Returned tt (madeSure dir w))
  \/ ((is_Some (fs w !! dir) \/ ensureDirFails env dir = true)
      /\ ensureDir env dir w = Thrown ensureDirError w).
Proof.
  unfold ensureDir. js.
  destruct (fs w !! dir) as [found|] eqn:Hfile; simpl.
  - right. split; [left; eauto | reflexivity].
  - destruct (ensureDirFails env dir); simpl.
    + right. split; [right; reflexivity | reflexivity].
    + left. auto.
Qed.

Lemma processLocale_unfold cfg source target requested w :
  processLocale env cfg source target requested w
  = match ensureDir env (pathJoin (directory cfg) target) w with
    | Returned _ w0 =>
        match forEach (map (fun ns => ns ++ ".json") (localeNamespaces cfg requested))
                (processLocaleFile env (pathJoin (directory cfg) source)
                   (pathJoin (directory cfg) target) target) w0 with
        | Returned _ w' =>
            Returned (Nat.eqb (completed (namespaceStats (stats w')))
                              (total (namespaceStats (stats w')))) w'
        | Thrown e w' => Thrown e w'
        | Exited c w' => Exited c w'
        | Unsettled w' => Unsettled w'
        end
    | Thrown e w' => Thrown e w'
    | Exited c w' => Exited c w'
    | Unsettled w' => Unsettled w'
    end.
Proof.
  unfold processLocale, bind.
  destruct (ensureDir env (pathJoin (directory cfg) target) w); reflexivity.
Qed.

(** ** Missing source files *)






(** ** The loop of [run] *)

Lemma translateLanguage_returned cfg opts lang w w' :
  translateLanguage env cfg opts lang w = Returned tt w' ->
  languagesCounted 1 (stats w) (stats w').
Proof.
  unfold translateLanguage, languagesCounted.
  destruct (includes (languages cfg) lang); simpl.
  - js. rewrite processLocale_unfold.
    destruct (ensureDir_cases (pathJoin (directory cfg) lang) w)
      as [(_ & _ & ->) | (_ & ->)]; [|discriminate].
    destruct (processLocale_loop (pathJoin (directory cfg) (sourceLanguage cfg))
                (pathJoin (directory cfg) lang) lang
                (map (fun ns => ns ++ ".json") (localeNamespaces cfg (namespace opts)))
                (madeSure (pathJoin (directory cfg) lang) w))
      as [(w1 & -> & Hc) | (k & w1 & -> & _)]; [|discriminate].
    destruct Hc as (Hlang & _). simpl in Hlang.
    destruct (Nat.eqb _ _); simpl;
      match goal with
      | |- context [showCombinedProgress lang "completed" ?x] =>
          destruct (showCombinedProgress_cases lang "completed" x) as [-> | ->]
      end; try discriminate; intros [= <-]; simpl; rewrite Hlang; conjs; lia.
  - js. intros [= <-]. simpl. conjs; lia.
Qed.

Lemma languages_loop_returned cfg opts targets :
  forall w w',
    forEach targets (translateLanguage env cfg opts) w = Returned tt w' ->
    languagesCounted (length targets) (stats w) (stats w').
Proof.
  induction targets as [|lang targets IH]; intros w w'.
  - simpl. unfold ret. intros [= <-]. unfold languagesCounted. conjs; lia.
  - rewrite forEach_cons.
    destruct (translateLanguage env cfg opts lang w) as [[] w1| | |] eqn:Hturn; try discriminate.
    intros Hrest. apply translateLanguage_returned in Hturn. apply IH in Hrest.
    unfold languagesCounted in *. simpl. conjs; lia.
Qed.

(** The confirmation gate returns, exits with status 0 or, at the end of
    the input, never settles; in every case only the console has changed. *)
Lemma confirmInvalid_outcome cfg invalidNamespaces w :
  exists w',
    quiet w w'
    /\ (confirmInvalid env cfg invalidNamespaces w = Returned tt w'
        \/ confirmInvalid env cfg invalidNamespaces w = Exited 0 w'
        \/ confirmInvalid env cfg invalidNamespaces w = Unsettled w').
Proof.
  unfold confirmInvalid, promptUser. destruct invalidNamespaces as [|ns rest].
  - exists w. split; [unfold quiet; auto | left; reflexivity].
  - js. destruct (answer env) as [typed|]; simpl.
    + destruct (negb _ && negb _); eexists; (split; [|eauto]); unfold quiet; auto.
    + eexists; (split; [|eauto]); unfold quiet; auto.
Qed.

(** The stages of [run] once the configuration is loaded. *)
Lemma run_stages opts cfg w :
  configFile env (config opts) = inl cfg ->
  exists w1,
    stats w1
    = onNamespaces (setTotal (length (valid (validateNamespaces cfg (namespace opts)))))
        (onLanguages (setTotal (length (languagesToTranslate cfg opts))) (stats w))
    /\ fs w1 = fs w /\ requests w1 = requests w
    /\ match confirmInvalid env cfg (errors (validateNamespaces cfg (namespace opts))) w1 with
       | Returned _ w2 =>
           exists w3,
             quiet w2 w3
             /\ match forEach (languagesToTranslate cfg opts) (translateLanguage env cfg opts) w3 with
                | Returned _ w4 => exists w5, quiet w4 w5 /\ run env opts w = Returned tt w5
                | Thrown e w4 => run env opts w = Thrown e w4
                | Exited c w4 => run env opts w = Exited c w4
                | Unsettled w4 => run env opts w = Unsettled w4
                end
       | Thrown e w2 => run env opts w = Thrown e w2
       | Exited c w2 => run env opts w = Exited c w2
       | Unsettled w2 => run env opts w = Unsettled w2
       end.
Proof.
  intros Hcfg. unfold run, loadProjectConfig. rewrite Hcfg. js.
  match goal with
  | |- context [confirmInvalid env cfg _ ?started] => exists started
  end.
  split; [reflexivity|]. split; [reflexivity|]. split; [reflexivity|].
  destruct (confirmInvalid env cfg _ _) as [[] w2|e w2|c w2|w2]; try reflexivity.
  match goal with
  | |- context [forEach _ _ ?ready] => exists ready
  end.
  split; [unfold quiet; auto|].
  destruct (forEach _ _ _) as [[] w4|e w4|c w4|w4]; try reflexivity.
  eexists. split; [|reflexivity]. unfold quiet; auto.
Qed.

(** ** Validation of the requested namespaces *)

Lemma classifyNamespaces_no_errors configured requested :
  errors (classifyNamespaces configured requested) = [] ->
  valid (classifyNamespaces configured requested) = requested.
Proof.
  induction requested as [|ns rest IH]; simpl; [reflexivity|].
  destruct (includes configured ns); simpl; [|discriminate].
  intros Hrest. rewrite (IH Hrest). reflexivity.
Qed.

Lemma classifyNamespaces_absent configured requested ns :
  In ns requested -> includes configured ns = false ->
  errors (classifyNamespaces configured requested) <> [].
Proof.
  induction requested as [|first rest IH]; simpl; [tauto|].
  intros [-> | Hin] Habsent.
  - rewrite Habsent. discriminate.
  - destruct (includes configured first); simpl; [auto | discriminate].
Qed.

(** Without an invalid name, [run] and [processLocale] agree on the
    namespaces. *)
Lemma validateNamespaces_no_errors cfg requested :
  errors (validateNamespaces cfg requested) = [] ->
  valid (validateNamespaces cfg requested) = localeNamespaces cfg requested.
Proof.
  destruct requested as [[|ns rest]|]; try reflexivity.
  apply classifyNamespaces_no_errors.
Qed.

Lemma validateNamespaces_absent cfg requested ns :
  In ns requested -> includes (namespaces cfg) ns = false ->
  errors (validateNamespaces cfg (Some requested)) <> [].
Proof.
  destruct requested as [|first rest]; [simpl; tauto|].
  apply classifyNamespaces_absent.
Qed.

(** ** Whole runs *)

Lemma confirmInvalid_declined cfg invalidNamespaces typed w :
  invalidNamespaces <> [] ->
  answer env = Some typed ->
  toLowerCase (trim typed) <> "y" ->
  toLowerCase (trim typed) <> "yes" ->
  exists w', quiet w w' /\ confirmInvalid env cfg invalidNamespaces w = Exited 0 w'.
Proof.
  intros Hsome Htyped Hy Hyes. unfold confirmInvalid, promptUser.
  destruct invalidNamespaces as [|ns rest]; [congruence|]. js. rewrite Htyped.
  apply String.eqb_neq in Hy, Hyes. rewrite Hy, Hyes. simpl.
  eexists. split; [|reflexivity]. unfold quiet; auto.
Qed.

(** C7. When a requested namespace is absent from the configuration and
    the answer typed at the prompt, once [trim] and [toLowerCase] (the
    built-ins, whatever they do) have been applied to it, is neither [y]
    nor [yes], [run] ends in [process.exit(0)] with the files as they
    were, no request sent and every completed and failed counter still
    zero. *)
Theorem declined_run_aborts
    (opts : Options) (cfg : Config) (files : gmap string FileData)
    (requested : list string) (ns typed : string) :
  configFile env (config opts) = inl cfg ->
  namespace opts = Some requested ->
  In ns requested ->
  includes (namespaces cfg) ns = false ->
  answer env = Some typed ->
  toLowerCase (trim typed) <> "y" ->
  toLowerCase (trim typed) <> "yes" ->
  exists w,
    run env opts (newLocaliser files) = Exited 0 w
    /\ main env opts files = Exited 0 w
    /\ fs w = files
    /\ requests w = []
    /\ completed (languageStats (stats w)) = 0
    /\ failed (languageStats (stats w)) = 0
    /\ completed (namespaceStats (stats w)) = 0
    /\ failed (namespaceStats (stats w)) = 0.
Proof.
  intros Hcfg Hreq Hin Habsent Htyped Hy Hyes.
  destruct (run_stages opts cfg (newLocaliser files) Hcfg)
    as (w1 & Hstats & Hfiles & Hsent & Hrest).
  destruct (confirmInvalid_declined cfg
              (errors (validateNamespaces cfg (namespace opts))) typed w1)
    as (w & Hquiet & Hexit);
    [rewrite Hreq; apply (validateNamespaces_absent _ _ _ Hin Habsent)
    | exact Htyped | exact Hy | exact Hyes |].
  rewrite Hexit in Hrest. destruct Hquiet as (Hs & Hf & Hr).
  exists w. split; [exact Hrest|]. split; [unfold main; rewrite Hrest; reflexivity|].
  rewrite Hs, Hf, Hr, Hstats, Hfiles, Hsent. simpl. auto 10.
Qed.

Lemma translateLanguage_within cfg opts lang w :
  includes (languages cfg) lang = true ->
  fs w !! pathJoin (directory cfg) lang = None ->
  ensureDirFails env (pathJoin (directory cfg) lang) = false ->
  completed (languageStats (stats w)) + failed (languageStats (stats w))
  < total (languageStats (stats w)) ->
  completed (namespaceStats (stats w)) + failed (namespaceStats (stats w))
  + length (localeNamespaces cfg (namespace opts))
  <= total (namespaceStats (stats w)) ->
  exists w',
    translateLanguage env cfg opts lang w = Returned tt w'
    /\ languagesCounted 1 (stats w) (stats w')
    /\ namespacesCounted (length (localeNamespaces cfg (namespace opts))) (stats w) (stats w').
Proof.
  intros Hsupported Hfree Hmade Hlang Hroom.
  unfold translateLanguage. rewrite Hsupported. simpl. js.
  rewrite processLocale_unfold.
  destruct (ensureDir_cases (pathJoin (directory cfg) lang) w)
    as [(_ & _ & ->) | ([[found Hfound] | Hrefused] & _)];
    [|rewrite Hfree in Hfound; discriminate | rewrite Hmade in Hrefused; discriminate].
  destruct (processLocale_loop_within (pathJoin (directory cfg) (sourceLanguage cfg))
              (pathJoin (directory cfg) lang) lang
              (map (fun ns => ns ++ ".json") (localeNamespaces cfg (namespace opts)))
              (madeSure (pathJoin (directory cfg) lang) w))
    as (w1 & -> & Hl & Hn); [simpl; lia | rewrite length_map; exact Hroom |].
  simpl in Hl, Hn.
  rewrite length_map in Hn. pose proof Hn as (Ht & Hc & Hf & Hsum).
  destruct (Nat.eqb _ _); simpl;
    (rewrite showCombinedProgress_within by (simpl; rewrite ?Hl; simpl; lia));
    (eexists; split; [reflexivity|]);
    unfold languagesCounted, namespacesCounted; simpl; rewrite Hl; simpl;
    conjs; lia.
Qed.

(** C1 (as amended). Once the configuration is loaded: whenever [run]
    returns, the language counters satisfy completed + failed = total;
    and when there is exactly one target language, which is configured
    and whose directory can be made (no file stands at its path and the
    outside world does not refuse it), and no requested namespace is
    absent from the configuration, [run] does return and both groups of
    counters satisfy the equation. *)
Theorem counters_balance_at_run_end
    (opts : Options) (cfg : Config) (files : gmap string FileData) :
  configFile env (config opts) = inl cfg ->
  (forall w,
      run env opts (newLocaliser files) = Returned tt w ->
      balanced (languageStats (stats w)))
  /\ (forall lang,
        languagesToTranslate cfg opts = [lang] ->
        includes (languages cfg) lang = true ->
        files !! pathJoin (directory cfg) lang = None ->
        ensureDirFails env (pathJoin (directory cfg) lang) = false ->
        errors (validateNamespaces cfg (namespace opts)) = [] ->
        exists w,
          run env opts (newLocaliser files) = Returned tt w
          /\ balanced (languageStats (stats w))
          /\ balanced (namespaceStats (stats w))).
Proof.
  intros Hcfg.
  destruct (run_stages opts cfg (newLocaliser files) Hcfg)
    as (w1 & Hstats & Hfiles & _ & Hrest).
  split.
  - intros w Hrun.
    destruct (confirmInvalid_outcome cfg
                (errors (validateNamespaces cfg (namespace opts))) w1)
      as (w2 & (Hs2 & _) & [Hgate | [Hgate | Hgate]]); rewrite Hgate in Hrest;
      [|congruence|congruence].
    destruct Hrest as (w3 & (Hs3 & _) & Hrest).
    destruct (forEach _ _ w3) as [[] w4|e w4|c w4|w4] eqn:Hloop; try congruence.
    destruct Hrest as (w5 & (Hs5 & _) & Hend).
    assert (w = w5) as -> by congruence.
    apply languages_loop_returned in Hloop.
    destruct Hloop as (Ht & _ & _ & Hsum).
    unfold balanced. rewrite Hs5, Hsum, Ht, Hs3, Hs2, Hstats. simpl. lia.
  - intros lang Htargets Hsupported Hfree Hmade Hvalid.
    rewrite Hvalid in Hrest. simpl in Hrest.
    destruct Hrest as (w3 & (Hs3 & Hf3 & _) & Hrest).
    rewrite Htargets, forEach_cons in Hrest.
    rewrite (validateNamespaces_no_errors _ _ Hvalid), Htargets in Hstats.
    destruct (translateLanguage_within cfg opts lang w3 Hsupported)
      as (w4 & Hturn & (Ht & _ & _ & Hsum) & (Hnt & _ & _ & Hnsum));
      [rewrite Hf3, Hfiles; exact Hfree | exact Hmade
      | rewrite Hs3, Hstats; simpl; lia | rewrite Hs3, Hstats; simpl; lia |].
    rewrite Hturn in Hrest. simpl in Hrest. unfold ret in Hrest.
    destruct Hrest as (w5 & (Hs5 & _) & Hend).
    exists w5. split; [exact Hend|]. unfold balanced.
    rewrite Hs5, Hsum, Ht, Hnsum, Hnt, Hs3, Hstats. simpl. lia.
Qed.

(** ** What the namespace counters count *)

(** A configured language: its directory is refused, or the pass starts
    in the world where it has been made sure of. *)
Lemma translateLanguage_cases cfg opts lang w :
  includes (languages cfg) lang = true ->
  ((is_Some (fs w !! pathJoin (directory cfg) lang)
    \/ ensureDirFails env (pathJoin (directory cfg) lang) = true)
   /\ translateLanguage env cfg opts lang w = Thrown ensureDirError w)
  \/ (fs w !! pathJoin (directory cfg) lang = None
      /\ ensureDirFails env (pathJoin (directory cfg) lang) = false
      /\ translateLanguage env cfg opts lang w
         = match forEach (map (fun ns => ns ++ ".json")
                            (localeNamespaces cfg (namespace opts)))
                   (processLocaleFile env (pathJoin (directory cfg) (sourceLanguage cfg))
                      (pathJoin (directory cfg) lang) lang)
                   (madeSure (pathJoin (directory cfg) lang) w) with
           | Returned _ w1 =>
               showCombinedProgress lang "completed"
                 (withStats
                    (onLanguages
                       (if Nat.eqb (completed (namespaceStats (stats w1)))
                                   (total (namespaceStats (stats w1)))
                        then bumpCompleted else bumpFailed)) w1)
           | Thrown e w1 => Thrown e w1
           | Exited c w1 => Exited c w1
           | Unsettled w1 => Unsettled w1
           end).
Proof.
  intros Hsupported. unfold translateLanguage. rewrite Hsupported. simpl. js.
  rewrite processLocale_unfold.
  destruct (ensureDir_cases (pathJoin (directory cfg) lang) w)
    as [(Hfree & Hmade & ->) | (Hwhy & ->)]; [right | left; auto].
  split; [exact Hfree|]. split; [exact Hmade|].
  destruct (forEach _ _ _) as [[] w1|e w1|c w1|w1]; try reflexivity.
  destruct (Nat.eqb _ _); simpl;
    match goal with
    | |- context [showCombinedProgress lang "completed" ?x] =>
        destruct (showCombinedProgress_cases lang "completed" x) as [-> | ->]
    end; reflexivity.
Qed.

Lemma translateLanguage_unsupported cfg opts lang w :
  includes (languages cfg) lang = false ->
  exists w',
    translateLanguage env cfg opts lang w = Returned tt w'
    /\ namespaceStats (stats w') = namespaceStats (stats w)
    /\ languageStats (stats w') = bumpFailed (languageStats (stats w)).
Proof.
  intros Hunsupported. unfold translateLanguage. rewrite Hunsupported. simpl. js.
  eexists. split; [reflexivity|]. split; reflexivity.
Qed.

(** A walked language adds the number of namespaces of [processLocale] to
    the namespace counters when it is configured, and nothing when it is
    not. *)
Lemma translateLanguage_counts cfg opts lang w w' :
  translateLanguage env cfg opts lang w = Returned tt w' ->
  namespacesCounted
    (if includes (languages cfg) lang
     then length (localeNamespaces cfg (namespace opts)) else 0)
    (stats w) (stats w').
Proof.
  destruct (includes (languages cfg) lang) eqn:Hsupported.
  - destruct (translateLanguage_cases cfg opts lang w Hsupported)
      as [(_ & ->) | (_ & _ & ->)]; [discriminate|].
    destruct (processLocale_loop (pathJoin (directory cfg) (sourceLanguage cfg))
                (pathJoin (directory cfg) lang) lang
                (map (fun ns => ns ++ ".json") (localeNamespaces cfg (namespace opts)))
                (madeSure (pathJoin (directory cfg) lang) w))
      as [(w1 & -> & _ & Hn) | (k & w1 & -> & _)]; [|discriminate].
    rewrite length_map in Hn. simpl in Hn.
    match goal with
    | |- context [showCombinedProgress lang "completed" ?x] =>
        destruct (showCombinedProgress_cases lang "completed" x) as [-> | ->]
    end; [|discriminate].
    intros [= <-]. exact Hn.
  - destruct (translateLanguage_unsupported cfg opts lang w Hsupported)
      as (w2 & -> & Hn & _).
    intros [= <-]. unfold namespacesCounted. rewrite Hn. conjs; lia.
Qed.

Lemma languages_loop_counts cfg opts targets :
  forall w w',
    forEach targets (translateLanguage env cfg opts) w = Returned tt w' ->
    namespacesCounted
      (length (List.filter (includes (languages cfg)) targets)
       * length (localeNamespaces cfg (namespace opts)))
      (stats w) (stats w').
Proof.
  induction targets as [|lang targets IH]; intros w w'.
  - simpl. unfold ret. intros [= <-]. unfold namespacesCounted. conjs; lia.
  - rewrite forEach_cons.
    destruct (translateLanguage env cfg opts lang w) as [[] w1| | |] eqn:Hturn; try discriminate.
    intros Hrest. apply translateLanguage_counts in Hturn. apply IH in Hrest.
    simpl. unfold namespacesCounted in *.
    destruct (includes (languages cfg) lang); simpl; conjs; lia.
Qed.

(** X24. When [run] returns, the namespace counters add up to one unit per
    pair of a configured target language and a namespace of
    [processLocale], whereas their total is the number of valid names. *)
Lemma run_namespace_accounting opts cfg files w :
  configFile env (config opts) = inl cfg ->
  run env opts (newLocaliser files) = Returned tt w ->
  total (namespaceStats (stats w))
  = length (valid (validateNamespaces cfg (namespace opts)))
  /\ completed (namespaceStats (stats w)) + failed (namespaceStats (stats w))
     = length (List.filter (includes (languages cfg)) (languagesToTranslate cfg opts))
       * length (localeNamespaces cfg (namespace opts)).
Proof.
  intros Hcfg Hrun.
  destruct (run_stages opts cfg (newLocaliser files) Hcfg)
    as (w1 & Hstats & _ & _ & Hrest).
  destruct (confirmInvalid_outcome cfg
              (errors (validateNamespaces cfg (namespace opts))) w1)
    as (w2 & (Hs2 & _) & [Hgate | [Hgate | Hgate]]); rewrite Hgate in Hrest;
    [|congruence|congruence].
  destruct Hrest as (w3 & (Hs3 & _) & Hrest).
  destruct (forEach _ _ w3) as [[] w4|e w4|c w4|w4] eqn:Hloop; try congruence.
  destruct Hrest as (w5 & (Hs5 & _) & Hend).
  assert (w = w5) as -> by congruence.
  apply languages_loop_counts in Hloop.
  destruct Hloop as (Ht & _ & _ & Hsum).
  rewrite Hs5, Hsum, Ht, Hs3, Hs2, Hstats. simpl. lia.
Qed.

(** ** Runs in which every file succeeds *)

Lemma includes_In (items : list string) (x : string) :
  In x items -> includes items x = true.
Proof.
  intros Hin. unfold includes. apply existsb_exists.
  exists x. split; [exact Hin | apply String.eqb_refl].
Qed.

(** Two target languages or more can only come from the configuration. *)
Lemma languagesToTranslate_supported cfg opts :
  2 <= length (languagesToTranslate cfg opts) ->
  Forall (fun lang => includes (languages cfg) lang = true) (languagesToTranslate cfg opts).
Proof.
  unfold languagesToTranslate. destruct (String.eqb (language opts) EmptyString); simpl; [|lia].
  intros _. apply List.Forall_forall. intros lang Hin.
  apply filter_In in Hin. apply includes_In. tauto.
Qed.

Lemma showCombinedProgress_finalWorld lang ns w :
  finalWorld (showCombinedProgress lang ns w) = w.
Proof. destruct (showCombinedProgress_cases lang ns w) as [-> | ->]; reflexivity. Qed.

(** The failed namespaces never decrease. *)
Lemma translateLanguage_failed_mono cfg opts lang w :
  failed (namespaceStats (stats w))
  <= failed (namespaceStats (stats (finalWorld (translateLanguage env cfg opts lang w)))).
Proof.
  destruct (includes (languages cfg) lang) eqn:Hsupported.
  - destruct (translateLanguage_cases cfg opts lang w Hsupported)
      as [(_ & ->) | (_ & _ & ->)]; [simpl; lia|].
    destruct (processLocale_loop (pathJoin (directory cfg) (sourceLanguage cfg))
                (pathJoin (directory cfg) lang) lang
                (map (fun ns => ns ++ ".json") (localeNamespaces cfg (namespace opts)))
                (madeSure (pathJoin (directory cfg) lang) w))
      as [(w1 & -> & _ & _ & _ & Hf & _) | (k & w1 & -> & _ & _ & _ & _ & Hf & _)].
    + rewrite showCombinedProgress_finalWorld. exact Hf.
    + exact Hf.
  - destruct (translateLanguage_unsupported cfg opts lang w Hsupported)
      as (w1 & -> & Hn & _).
    simpl. rewrite Hn. lia.
Qed.

Lemma languages_loop_failed_mono cfg opts targets :
  forall w,
    failed (namespaceStats (stats w))
    <= failed (namespaceStats (stats (finalWorld
                 (forEach targets (translateLanguage env cfg opts) w)))).
Proof.
  induction targets as [|lang targets IH]; intros w.
  - simpl. lia.
  - rewrite forEach_cons.
    pose proof (translateLanguage_failed_mono cfg opts lang w) as Hturn.
    destruct (translateLanguage env cfg opts lang w) as [[] w1|e w1|c w1|w1];
      simpl in *; [|exact Hturn|exact Hturn|exact Hturn].
    specialize (IH w1). lia.
Qed.

(** A pass that starts with the namespace counter at its total and is long
    enough to push it to [31/30] of the total cannot count every file as
    completed: a pass that returns has met a failure. *)
Lemma processLocale_loop_overflow sourceLanguageDir targetLanguageDir targetLanguage files :
  forall w w',
    forEach files (processLocaleFile env sourceLanguageDir targetLanguageDir targetLanguage) w
    = Returned tt w' ->
    files <> [] ->
    0 < total (namespaceStats (stats w)) ->
    31 * total (namespaceStats (stats w)) + 30
    <= 30 * (completed (namespaceStats (stats w)) + length files) ->
    failed (namespaceStats (stats w)) < failed (namespaceStats (stats w')).
Proof.
  induction files as [|file files IH]; intros w w' Hrun Hsome Hpos Hover; [congruence|].
  rewrite forEach_cons, processLocaleFile_unfold in Hrun.
  destruct (showCombinedProgress_cases targetLanguage (replaceFirst ".json" EmptyString file) w)
    as [Hshow | Hshow]; rewrite Hshow in Hrun; [|discriminate].
  destruct (countNamespaceFile_counted sourceLanguageDir targetLanguageDir file w)
    as (w1 & Hcount & _ & Ht & Hc & Hf & Hsum).
  rewrite Hcount in Hrun.
  destruct files as [|next files].
  - simpl in Hover.
    rewrite showCombinedProgress_overflow in Hshow by lia. discriminate.
  - destruct (processLocale_loop sourceLanguageDir targetLanguageDir targetLanguage
                (next :: files) w1)
      as [(w2 & Hrest & _ & _ & _ & Hf2 & _) | (k & w2 & Hrest & _)];
      rewrite Hrest in Hrun; [|discriminate].
    injection Hrun as <-.
    destruct (Nat.eq_dec (failed (namespaceStats (stats w1)))
                (failed (namespaceStats (stats w)))) as [Hsame | Hmore]; [|lia].
    assert (failed (namespaceStats (stats w1)) < failed (namespaceStats (stats w2))).
    { apply (IH w1 w2 Hrest); [discriminate | lia | simpl in *; lia]. }
    lia.
Qed.

(** [processLocale] reports what the run-global counters say. *)
Lemma processLocale_reports_global_counters cfg source target requested w success w' :
  processLocale env cfg source target requested w = Returned success w' ->
  success = Nat.eqb (completed (namespaceStats (stats w')))
                    (total (namespaceStats (stats w'))).
Proof.
  rewrite processLocale_unfold.
  destruct (ensureDir _ _ w) as [[] w0|e w0|c w0|w0]; try discriminate.
  destruct (forEach _ _ w0) as [[] w1|e w1|c w1|w1]; try discriminate.
  intros [= <- <-]. reflexivity.
Qed.

(** A configured language whose directory is not refused, walked with
    the namespace counter already at its total, all of whose files are
    translated, ends the run: with one namespace the language is counted
    as failed and the progress line after it cannot be drawn; with more, a
    progress line inside the pass cannot be drawn and the language is not
    counted. *)
Lemma translateLanguage_after_full_pass cfg opts lang w :
  includes (languages cfg) lang = true ->
  translateLanguage env cfg opts lang w <> Thrown ensureDirError w ->
  1 <= length (localeNamespaces cfg (namespace opts)) ->
  total (namespaceStats (stats w)) = length (localeNamespaces cfg (namespace opts)) ->
  completed (namespaceStats (stats w)) = length (localeNamespaces cfg (namespace opts)) ->
  completed (languageStats (stats w)) <= total (languageStats (stats w)) ->
  failed (namespaceStats (stats (finalWorld (translateLanguage env cfg opts lang w))))
  = failed (namespaceStats (stats w)) ->
  exists w',
    translateLanguage env cfg opts lang w = Thrown rangeError w'
    /\ completed (languageStats (stats w')) = completed (languageStats (stats w))
    /\ failed (languageStats (stats w'))
       = failed (languageStats (stats w))
         + (if Nat.eqb (length (localeNamespaces cfg (namespace opts))) 1 then 1 else 0).
Proof.
  intros Hsupported Hmade Hone Htotal Hfull Hlang.
  destruct (translateLanguage_cases cfg opts lang w Hsupported)
    as [(_ & Hrefused) | (_ & _ & ->)]; [contradiction|].
  clear Hmade.
  destruct (Nat.eqb_spec (length (localeNamespaces cfg (namespace opts))) 1) as [Hn | Hn].
  - destruct (localeNamespaces cfg (namespace opts)) as [|ns [|? ?]]; try discriminate.
    simpl map. rewrite forEach_cons, processLocaleFile_unfold.
    rewrite showCombinedProgress_within by (simpl; lia).
    destruct (countNamespaceFile_counted (pathJoin (directory cfg) (sourceLanguage cfg))
                (pathJoin (directory cfg) lang) (ns ++ ".json")
                (madeSure (pathJoin (directory cfg) lang) w))
      as (w1 & -> & Hl & Ht & Hc & Hf & Hsum).
    simpl in Hl, Ht, Hc, Hf, Hsum.
    simpl forEach. unfold ret. rewrite showCombinedProgress_finalWorld. simpl.
    intros Hnofail.
    destruct (Nat.eqb_spec (completed (namespaceStats (stats w1)))
                (total (namespaceStats (stats w1)))) as [Heq | Hne];
      [simpl in *; lia|].
    rewrite showCombinedProgress_overflow by (simpl in *; lia).
    eexists. split; [reflexivity|]. simpl. rewrite Hl. simpl. lia.
  - destruct (processLocale_loop (pathJoin (directory cfg) (sourceLanguage cfg))
                (pathJoin (directory cfg) lang) lang
                (map (fun ns => ns ++ ".json") (localeNamespaces cfg (namespace opts)))
                (madeSure (pathJoin (directory cfg) lang) w))
      as [(w1 & Hloop & _) | (k & w1 & Hloop & _ & Hl & _)]; rewrite Hloop.
    + rewrite showCombinedProgress_finalWorld. simpl. intros Hnofail.
      apply processLocale_loop_overflow in Hloop; simpl in Hloop.
      * lia.
      * destruct (localeNamespaces cfg (namespace opts)); simpl in *; [lia | discriminate].
      * simpl. lia.
      * rewrite length_map. simpl. lia.
    + intros _. exists w1. split; [reflexivity|]. simpl in Hl. rewrite Hl. lia.
Qed.

(** X25. A run with two target languages or more, one namespace or more,
    no requested namespace absent from the configuration, no failed file
    and no rejected [fs.ensureDir] ends in the [RangeError] of the
    progress bar during or right after the second language, with exactly
    one language counted as completed. *)
Lemma run_without_failures_stops opts cfg files :
  configFile env (config opts) = inl cfg ->
  2 <= length (languagesToTranslate cfg opts) ->
  1 <= length (localeNamespaces cfg (namespace opts)) ->
  errors (validateNamespaces cfg (namespace opts)) = [] ->
  failed (namespaceStats (stats (finalWorld (run env opts (newLocaliser files))))) = 0 ->
  (forall w, run env opts (newLocaliser files) <> Thrown ensureDirError w) ->
  exists w,
    run env opts (newLocaliser files) = Thrown rangeError w
    /\ completed (languageStats (stats w)) = 1
    /\ failed (languageStats (stats w))
       = if Nat.eqb (length (localeNamespaces cfg (namespace opts))) 1 then 1 else 0.
Proof.
  intros Hcfg Htwo Hone Hvalid Hnofail Hdirs.
  pose proof (languagesToTranslate_supported cfg opts Htwo) as Hsup.
  destruct (run_stages opts cfg (newLocaliser files) Hcfg)
    as (w1 & Hstats & _ & _ & Hrest).
  rewrite (validateNamespaces_no_errors _ _ Hvalid) in Hstats.
  rewrite Hvalid in Hrest. simpl in Hrest.
  destruct Hrest as (w3 & (Hs3 & _) & Hrest).
  rewrite <- Hs3 in Hstats. clear Hs3 w1.
  destruct (languagesToTranslate cfg opts) as [|first [|second others]];
    simpl in Htwo; try lia.
  inversion Hsup as [|? ? Hfirst Hsup']. inversion Hsup' as [|? ? Hsecond _]. subst.
  rewrite forEach_cons in Hrest.
  destruct (translateLanguage_cases cfg opts first w3 Hfirst)
    as [(_ & Hturn) | (_ & _ & Hturn)]; rewrite Hturn in Hrest;
    [exfalso; apply (Hdirs _ Hrest)|].
  clear Hturn.
  destruct (processLocale_loop_within (pathJoin (directory cfg) (sourceLanguage cfg))
              (pathJoin (directory cfg) first) first
              (map (fun ns => ns ++ ".json") (localeNamespaces cfg (namespace opts)))
              (madeSure (pathJoin (directory cfg) first) w3))
    as (wa & Hpass & Hl & Ht & _ & _ & Hsum);
    [simpl; rewrite Hstats; simpl; lia | simpl; rewrite Hstats, length_map; simpl; lia |].
  simpl in Hl, Ht, Hsum.
  rewrite length_map in Hsum. rewrite Hstats in Hl, Ht, Hsum. simpl in Hl, Ht, Hsum.
  rewrite Hpass in Hrest.
  rewrite showCombinedProgress_within in Hrest
    by (simpl; rewrite ?Hl; destruct (Nat.eqb _ _); simpl; lia).
  rewrite forEach_cons in Hrest.
  match type of Hrest with
  | context [translateLanguage env cfg opts second ?x] => set (wb := x) in *
  end.
  assert (Hkept : failed (namespaceStats (stats
                    (finalWorld (translateLanguage env cfg opts second wb)))) = 0).
  { pose proof (translateLanguage_failed_mono cfg opts second wb) as Hmono.
    destruct (translateLanguage env cfg opts second wb) as [[] w4|e w4|c w4|w4];
      simpl in *; try (rewrite Hrest in Hnofail; simpl in Hnofail; lia).
    pose proof (languages_loop_failed_mono cfg opts others w4) as Hloop.
    destruct (forEach others (translateLanguage env cfg opts) w4) as [[] w5|e w5|c w5|w5];
      simpl in *; try (rewrite Hrest in Hnofail; simpl in Hnofail; lia).
    destruct Hrest as (w6 & (Hs6 & _) & Hend).
    rewrite Hend in Hnofail. simpl in Hnofail. rewrite Hs6 in Hnofail. lia. }
  assert (Hclean : failed (namespaceStats (stats wa)) = 0).
  { pose proof (translateLanguage_failed_mono cfg opts second wb) as Hmono.
    subst wb. simpl in Hmono. lia. }
  assert (Hfull : Nat.eqb (completed (namespaceStats (stats wa)))
                    (total (namespaceStats (stats wa))) = true).
  { apply Nat.eqb_eq. lia. }
  assert (Hmade : translateLanguage env cfg opts second wb <> Thrown ensureDirError wb).
  { intros Hrefused. rewrite Hrefused in Hrest. apply (Hdirs _ Hrest). }
  destruct (translateLanguage_after_full_pass cfg opts second wb Hsecond Hmade Hone)
    as (w & Hstop & Hdone & Hfailed).
  - subst wb. simpl. lia.
  - subst wb. simpl. lia.
  - subst wb. simpl. rewrite Hfull, Hl. simpl. lia.
  - rewrite Hkept. subst wb. simpl. lia.
  - rewrite Hstop in Hrest. exists w. split; [exact Hrest|].
    rewrite Hdone, Hfailed. subst wb. simpl. rewrite Hfull, Hl. simpl. lia.
Qed.

End Behaviour.

(** ** Runs on the worked inputs *)

Section Runs.
Import Examples.
Local Existing Instance posixPath.
Local Existing Instance asciiStrings.

(** C1, counterexample. [localiser -l xx] with [xx] not configured: the
    run returns, the language is counted as failed and no file is
    processed, so the namespace counters stay at 0 + 0 under a total of 1. *)
Lemma unsupported_language_leaves_namespaces_uncounted :
  exists w,
    run (world oneTarget echo EmptyString) (only "xx") (newLocaliser homeOnly) = Returned tt w
    /\ languageStats (stats w) = {| total := 1; completed := 0; failed := 1 |}
    /\ namespaceStats (stats w) = {| total := 1; completed := 0; failed := 0 |}
    /\ ~ balanced (namespaceStats (stats w)).
Proof.
  eexists. split; [vm_compute; reflexivity|].
  split; [reflexivity|]. split; [reflexivity|].
  unfold balanced. simpl. lia.
Qed.


(** C3, the failing run. Two target languages, one namespace, no source
    file: the run returns with two failed namespaces under a total of 1. *)
Theorem namespace_counters_overshoot_total :
  exists w,
    run (world twoTargets echo EmptyString) plain (newLocaliser ∅) = Returned tt w
    /\ namespaceStats (stats w) = {| total := 1; completed := 0; failed := 2 |}
    /\ ~ (completed (namespaceStats (stats w)) + failed (namespaceStats (stats w))
          <= total (namespaceStats (stats w))).
Proof.
  eexists. split; [vm_compute; reflexivity|].
  split; [reflexivity|]. simpl. lia.
Qed.

(** C2, the failing runs. [localiser -n home,extra] with only [home]
    configured and the answer [y]: the total counts the valid name alone,
    yet [extra] is processed. When its source file exists its translation
    is written; when it does not, the pair is counted as failed. *)
Theorem invalid_namespace_is_processed :
  validateNamespaces oneTarget (namespace (picking "home,extra"))
  = {| valid := ["home"]; errors := ["extra"] |}
  /\ (exists e w,
        run (world oneTarget echo "y") (picking "home,extra") (newLocaliser homeAndExtra)
        = Thrown e w
        /\ total (namespaceStats (stats w)) = 1
        /\ fs w !! "locales/fr/extra.json" = Some (Doc greeting))
  /\ (exists w,
        run (world oneTarget echo "y") (picking "home,extra") (newLocaliser homeOnly)
        = Returned tt w
        /\ namespaceStats (stats w) = {| total := 1; completed := 1; failed := 1 |}).
Proof.
  split; [reflexivity|]. split.
  - eexists _, _. split; [vm_compute; reflexivity|].
    split; [reflexivity | vm_compute; reflexivity].
  - eexists. split; [vm_compute; reflexivity | reflexivity].
Qed.

(** C9, the failing run. Three target languages, one namespace, every
    file translated: the first language is counted as completed, the
    second as failed, and the progress line after the second cannot be
    drawn, so the third language is neither processed nor counted. *)
Theorem third_language_is_never_counted :
  languagesToTranslate threeTargets plain = ["fr"; "de"; "it"]
  /\ exists w,
      run (world threeTargets echo EmptyString) plain (newLocaliser homeOnly)
      = Thrown rangeError w
      /\ languageStats (stats w) = {| total := 3; completed := 1; failed := 1 |}
      /\ namespaceStats (stats w) = {| total := 1; completed := 2; failed := 0 |}
      /\ fs w !! "locales/de/home.json" = Some (Doc greeting)
      /\ fs w !! "locales/it/home.json" = None.
Proof.
  split; [reflexivity|].
  eexists. split; [vm_compute; reflexivity|].
  split; [reflexivity|]. split; [reflexivity|].
  split; vm_compute; reflexivity.
Qed.

(** ** The general statements at the worked inputs *)

Lemma getFilePath_json_extension_witness :
  endsWith (pathJoin "locales/en" "home.json") ".json" = true
  /\ getFilePath "locales/en" "home.json" = pathJoin "locales/en" "home.json"
  /\ getFilePath "locales/en" "home" = "locales/en/home.json".
Proof.
  split; [reflexivity|]. split.
  - apply (proj1 (proj2 (getFilePath_json_extension "locales/en" "home.json"))).
    reflexivity.
  - reflexivity.
Defined.

Lemma translateJson_degrades_silently_witness :
  exists line w',
    translateJson (world oneTarget offline EmptyString) greeting "fr" (newLocaliser homeOnly)
    = Returned (JObject []) w'
    /\ console w' = line :: console (newLocaliser homeOnly)
    /\ startsWith line "<red>" = true
    /\ requests w' = buildTranslationPrompt greeting "fr" :: requests (newLocaliser homeOnly)
    /\ fs w' = fs (newLocaliser homeOnly)
    /\ stats w' = stats (newLocaliser homeOnly).
Proof.
  apply (translateJson_degrades_silently (world oneTarget offline EmptyString) greeting "fr"
           (newLocaliser homeOnly)).
  exists "Connection error.". left. reflexivity.
Defined.



Lemma target_is_overwritten_witness :
  fs stale !! "locales/fr/home.json" = Some (Doc (JString "old"))
  /\ exists sourceContent translated w1,
      fs stale !! getFilePath "locales/en" "home.json" = Some (Doc sourceContent)
      /\ translateJson (world oneTarget echo EmptyString) sourceContent (pathBasename "locales/fr") stale
         = Returned translated w1
      /\ fs (writeFile "locales/fr/home.json" (Doc greeting)
               (sent (buildTranslationPrompt greeting "fr") stale))
         = <[getFilePath "locales/fr" "home.json" := Doc translated]> (fs stale)
      /\ forall old,
          getFilePath "locales/fr" "home.json" <> getFilePath "locales/en" "home.json" ->
          exists w2,
            processNamespaceFile (world oneTarget echo EmptyString) "locales/en" "locales/fr" "home.json"
              (writeFile (getFilePath "locales/fr" "home.json") old stale)
            = Returned true w2
            /\ fs w2 = fs (writeFile "locales/fr/home.json" (Doc greeting)
                            (sent (buildTranslationPrompt greeting "fr") stale)).
Proof.
  split; [vm_compute; reflexivity|].
  apply (target_is_overwritten (world oneTarget echo EmptyString) "locales/en" "locales/fr" "home.json"
           stale
           (writeFile "locales/fr/home.json" (Doc greeting)
              (sent (buildTranslationPrompt greeting "fr") stale))).
  vm_compute; reflexivity.
Defined.

Lemma declined_run_aborts_witness :
  answer (world oneTarget echo " No ") = Some " No "
  /\ toLowerCase (trim " No ") = "no"
  /\ exists w,
      run (world oneTarget echo " No ") (picking "home,extra") (newLocaliser homeOnly)
      = Exited 0 w
      /\ main (world oneTarget echo " No ") (picking "home,extra") homeOnly = Exited 0 w
      /\ fs w = homeOnly
      /\ requests w = []
      /\ completed (languageStats (stats w)) = 0
      /\ failed (languageStats (stats w)) = 0
      /\ completed (namespaceStats (stats w)) = 0
      /\ failed (namespaceStats (stats w)) = 0.
Proof.
  split; [reflexivity|]. split; [reflexivity|].
  apply (declined_run_aborts (world oneTarget echo " No ") (picking "home,extra") oneTarget
           homeOnly ["home"; "extra"] "extra" " No ").
  - reflexivity.
  - reflexivity.
  - simpl. tauto.
  - reflexivity.
  - reflexivity.
  - vm_compute. discriminate.
  - vm_compute. discriminate.
Defined.

Lemma counters_balance_at_run_end_witness :
  configFile (world oneTarget echo EmptyString) (config plain) = inl oneTarget
  /\ homeOnly !! pathJoin (directory oneTarget) "fr" = None
  /\ exists w,
      run (world oneTarget echo EmptyString) plain (newLocaliser homeOnly) = Returned tt w
      /\ balanced (languageStats (stats w))
      /\ balanced (namespaceStats (stats w)).
Proof.
  split; [reflexivity|]. split; [vm_compute; reflexivity|].
  apply (proj2 (counters_balance_at_run_end (world oneTarget echo EmptyString) plain oneTarget
                  homeOnly eq_refl) "fr"); vm_compute; reflexivity.
Defined.

Lemma run_without_failures_stops_witness :
  failed (namespaceStats (stats (finalWorld
            (run (world threeTargets echo EmptyString) plain (newLocaliser homeOnly))))) = 0
  /\ exists w,
      run (world threeTargets echo EmptyString) plain (newLocaliser homeOnly)
      = Thrown rangeError w
      /\ completed (languageStats (stats w)) = 1
      /\ failed (languageStats (stats w)) = 1.
Proof.
  split; [vm_compute; reflexivity|].
  apply (run_without_failures_stops (world threeTargets echo EmptyString) plain threeTargets
           homeOnly).
  - reflexivity.
  - simpl. lia.
  - simpl. lia.
  - reflexivity.
  - vm_compute. reflexivity.
  - intros w Hrefused. vm_compute in Hrefused. discriminate.
Defined.

End Runs.

(** * Further properties of the code *)

(** ** The [--namespace] parser of [initializeCLI] *)

Lemma splitComma_length cur s :
  length (splitComma cur s) = S (countChar ","%char s).
Proof.
  revert cur. induction s as [|c rest IH]; intros cur; simpl; [reflexivity|].
  destruct (Ascii.eqb c ","%char); simpl; rewrite IH; reflexivity.
Qed.

(** X1. The parser returns one name more than the argument has commas: it
    never returns the empty array, and an empty argument gives one
    (empty) name. *)
Theorem parseNamespaceOption_length {strings : StringModule} (value : string) :
  length (parseNamespaceOption value) = S (countChar ","%char value).
Proof.
  unfold parseNamespaceOption. rewrite length_map. apply splitComma_length.
Qed.

Lemma append_empty_r (s : string) : s ++ EmptyString = s.
Proof.
  induction s as [|c rest IH]; [reflexivity|].
  change (String c (rest ++ EmptyString) = String c rest). rewrite IH. reflexivity.
Qed.

Lemma append_assoc (a b c : string) : (a ++ b) ++ c = a ++ (b ++ c).
Proof.
  induction a as [|x a IH]; [reflexivity|].
  change (String x ((a ++ b) ++ c) = String x (a ++ (b ++ c))). rewrite IH. reflexivity.
Qed.

Lemma splitComma_join cur s :
  joinWith "," (splitComma cur s) = cur ++ s.
Proof.
  revert cur. induction s as [|c rest IH]; intros cur.
  - simpl. rewrite append_empty_r. reflexivity.
  - simpl. destruct (Ascii.eqb_spec c ","%char) as [-> | Hother].
    + specialize (IH EmptyString). unfold joinWith in *.
      destruct (splitComma EmptyString rest) as [|first pieces] eqn:Hsplit.
      * pose proof (splitComma_length EmptyString rest) as Hlen.
        rewrite Hsplit in Hlen. discriminate.
      * change (String.concat "," (cur :: first :: pieces))
          with (cur ++ "," ++ String.concat "," (first :: pieces)).
        rewrite IH. reflexivity.
    + rewrite IH, append_assoc. reflexivity.
Qed.

(** X2. Splitting the argument at its commas loses nothing: the pieces
    joined with commas are the argument. *)
Theorem split_then_join (value : string) :
  joinWith "," (splitComma EmptyString value) = value.
Proof. apply (splitComma_join EmptyString value). Qed.

(** X3. Every name the parser returns is trimmed: trimming it again
    changes nothing. *)
Theorem parseNamespaceOption_trimmed {strings : StringModule} (value : string) :
  Forall (fun name => trim name = name) (parseNamespaceOption value).
Proof.
  unfold parseNamespaceOption. apply List.Forall_forall. intros name Hin.
  apply in_map_iff in Hin. destruct Hin as (piece & <- & _). apply trim_idempotent.
Qed.

(** ** [validateNamespaces] *)

Lemma classifyNamespaces_filters configured requested :
  valid (classifyNamespaces configured requested)
  = List.filter (includes configured) requested
  /\ errors (classifyNamespaces configured requested)
     = List.filter (fun ns => negb (includes configured ns)) requested.
Proof.
  induction requested as [|ns rest [IHv IHe]]; simpl; [split; reflexivity|].
  destruct (includes configured ns); simpl; rewrite IHv, IHe; split; reflexivity.
Qed.

Lemma filter_split_length {A} (f : A -> bool) (l : list A) :
  length (List.filter f l) + length (List.filter (fun x => negb (f x)) l) = length l.
Proof.
  induction l as [|x l IH]; simpl; [reflexivity|].
  destruct (f x); simpl; lia.
Qed.

(** X5. For a non-empty request, [validateNamespaces] splits the
    requested names, in their order and with their repetitions, into the
    configured ones ([valid]) and the others ([errors]): no name is lost
    and none is invented. *)
Theorem validateNamespaces_partitions (cfg : Config) (requested : list string) :
  requested <> [] ->
  valid (validateNamespaces cfg (Some requested))
  = List.filter (includes (namespaces cfg)) requested
  /\ errors (validateNamespaces cfg (Some requested))
     = List.filter (fun ns => negb (includes (namespaces cfg) ns)) requested
  /\ length (valid (validateNamespaces cfg (Some requested)))
     + length (errors (validateNamespaces cfg (Some requested)))
     = length requested.
Proof.
  intros Hsome. destruct requested as [|ns rest]; [congruence|].
  unfold validateNamespaces.
  destruct (classifyNamespaces_filters (namespaces cfg) (ns :: rest)) as [-> ->].
  split; [reflexivity|]. split; [reflexivity|]. apply filter_split_length.
Qed.

(** ** The progress bar, continued *)

Lemma roundedShare_within (current all : nat) :
  0 < all -> current <= all ->
  exists filled, roundedShare current all barLength = Finite filled
                 /\ (0 <= filled <= 15)%Z
                 /\ (current = 0 -> filled = 0%Z)
                 /\ (current = all -> filled = 15%Z).
Proof.
  intros Hpos Hle. unfold roundedShare, barLength.
  destruct all as [|t]; [lia|]. eexists. split; [reflexivity|].
  split; [|split].
  - split; [apply Z.div_pos; lia|].
    apply Z.lt_succ_r. apply Z.div_lt_upper_bound; lia.
  - intros ->. apply Z.div_small. lia.
  - intros ->. symmetry. apply (Z.div_unique _ _ 15 (Z.of_nat (S t))); lia.
Qed.

(** X6. For a non-zero total and a counter within it, the bar is built and
    is always 15 cells wide, empty at 0 and full at the total. *)
Theorem progressBar_width (current all : nat) :
  0 < all -> current <= all ->
  exists filled remaining,
    progressBar current all = Some (filled, remaining)
    /\ filled + remaining = 15
    /\ (current = 0 -> filled = 0)
    /\ (current = all -> filled = 15).
Proof.
  intros Hpos Hle.
  destruct (roundedShare_within current all Hpos Hle) as (z & Hz & Hrange & Hzero & Hfull).
  unfold progressBar. rewrite Hz. simpl.
  destruct (Z.ltb_spec z 0); [lia|].
  destruct (Z.ltb_spec (barLength - z) 0); [unfold barLength in *; lia|].
  eexists _, _. split; [reflexivity|]. unfold barLength.
  split; [lia|]. split; intros Hcase; [rewrite (Hzero Hcase) | rewrite (Hfull Hcase)];
    reflexivity.
Qed.

(** X7. For a non-zero total the bar cannot be built exactly when the
    counter has reached 31/30 of the total; with a zero total it is empty
    for a zero counter and cannot be built for any other. *)
Theorem progressBar_fails_exactly (current all : nat) :
  (0 < all -> (progressBar current all = None <-> 31 * all <= 30 * current))
  /\ progressBar 0 0 = Some (0, 0)
  /\ progressBar (S current) 0 = None.
Proof.
  split; [|split; reflexivity].
  intros Hpos. split.
  - intros Hnone.
    destruct (Nat.le_gt_cases (31 * all) (30 * current)) as [Hover | Hunder]; [exact Hover|].
    exfalso. revert Hnone. unfold progressBar, roundedShare, barLength.
    destruct all as [|t]; [lia|].
    set (q := ((2 * Z.of_nat current * 15 + Z.of_nat (S t)) / (2 * Z.of_nat (S t)))%Z).
    assert (Hq : (0 <= q <= 15)%Z).
    { subst q. split; [apply Z.div_pos; lia|].
      apply Z.lt_succ_r. apply Z.div_lt_upper_bound; lia. }
    simpl. destruct (Z.ltb_spec q 0); [lia|].
    destruct (Z.ltb_spec (15 - q) 0); [lia | discriminate].
  - apply progressBar_overflow. exact Hpos.
Qed.

Section FurtherBehaviour.
Context {path : PathModule} {strings : StringModule}.
Variable env : Env.

(** X8. [showCombinedProgress] leaves the counters, the files and the
    requests as they are, whether it returns or throws; it throws nothing
    but the [RangeError], and returns whenever both completed counters are
    within their totals. *)
Theorem showCombinedProgress_changes_nothing (lang ns : string) (w : World) :
  (showCombinedProgress lang ns w = Returned tt w
   \/ showCombinedProgress lang ns w = Thrown rangeError w)
  /\ stats (finalWorld (showCombinedProgress lang ns w)) = stats w
  /\ fs (finalWorld (showCombinedProgress lang ns w)) = fs w
  /\ requests (finalWorld (showCombinedProgress lang ns w)) = requests w
  /\ (completed (languageStats (stats w)) <= total (languageStats (stats w)) ->
      completed (namespaceStats (stats w)) <= total (namespaceStats (stats w)) ->
      showCombinedProgress lang ns w = Returned tt w).
Proof.
  split; [apply showCombinedProgress_cases|].
  rewrite showCombinedProgress_finalWorld.
  conjs; try reflexivity. apply showCombinedProgress_within.
Qed.

(** ** The translation adapter, continued *)

(** X9. [translateJson] never throws and never exits: it returns after
    exactly one request, with the files and the counters untouched. What
    it returns is the reply of the service, with nothing logged, or the
    empty mapping. *)
Theorem translateJson_one_request (jsonObject : Json) (targetLang : string) (w : World) :
  exists translated w',
    translateJson env jsonObject targetLang w = Returned translated w'
    /\ stats w' = stats w
    /\ fs w' = fs w
    /\ requests w' = buildTranslationPrompt jsonObject targetLang :: requests w
    /\ ((service env (length (requests w)) (buildTranslationPrompt jsonObject targetLang)
         = Reply translated
         /\ console w' = console w)
        \/ translated = JObject []).
Proof.
  unfold translateJson. js. simpl.
  destruct (service env _ _); simpl; eexists _, _;
    (split; [reflexivity|]); conjs; try reflexivity; auto.
Qed.

(** ** The file processor, continued *)

Lemma getFilePath_endsWith dir name : endsWith (getFilePath dir name) ".json" = true.
Proof.
  unfold getFilePath. destruct (endsWith (pathJoin dir name) ".json") eqn:Hjoined.
  - exact Hjoined.
  - apply endsWith_append.
Qed.

(** X10. [processNamespaceFile] never throws and never exits. It leaves
    the counters alone, sends at most one request, and changes the files
    at the target path only. *)
Theorem processNamespaceFile_frame
    (sourceLanguageDir targetLanguageDir file : string) (w : World) :
  exists success w',
    processNamespaceFile env sourceLanguageDir targetLanguageDir file w = Returned success w'
    /\ stats w' = stats w
    /\ (requests w' = requests w \/ exists prompt, requests w' = prompt :: requests w)
    /\ forall p, p <> getFilePath targetLanguageDir file -> fs w' !! p = fs w !! p.
Proof.
  rewrite processNamespaceFile_unfold.
  destruct (fs w !! getFilePath sourceLanguageDir file) as [[|sourceContent]|];
    try (eexists _, _; split; [reflexivity|]; conjs; auto; fail).
  destruct (translateJson_returns env sourceContent (pathBasename targetLanguageDir) w)
    as (translated & w1 & -> & Hstats & Hfiles & Hsent).
  destruct (objectKeysLength translated) as [[|n]|];
    try (eexists _, _; split; [reflexivity|]; conjs; eauto; intros; congruence).
  destruct (writeFails env _);
    (eexists _, _; split; [reflexivity|]; conjs; eauto).
  - intros; congruence.
  - intros p Hother. cbn [fs writeFile]. rewrite lookup_insert_ne, Hfiles; auto.
Qed.

(** X11. A file that fails leaves the file system exactly as it was: a
    missing or unreadable source, an empty or [null] reply and a failed
    write all end with the files before the call. *)
Theorem failed_file_changes_no_file
    (sourceLanguageDir targetLanguageDir file : string) (w w' : World) :
  processNamespaceFile env sourceLanguageDir targetLanguageDir file w = Returned false w' ->
  fs w' = fs w /\ stats w' = stats w.
Proof.
  rewrite processNamespaceFile_unfold.
  destruct (fs w !! getFilePath sourceLanguageDir file) as [[|sourceContent]|];
    try (intros [= <-]; auto; fail).
  destruct (translateJson_returns env sourceContent (pathBasename targetLanguageDir) w)
    as (translated & w1 & -> & Hstats & Hfiles & _).
  destruct (objectKeysLength translated) as [[|n]|];
    try (intros [= <-]; auto; fail).
  destruct (writeFails env _); [intros [= <-]; auto | discriminate].
Qed.

(** X12. [processNamespaceFile] succeeds exactly when the source holds a
    JSON document, the adapter's result for it has at least one key (an
    object with a member, a non-empty array or a non-empty string) and the
    write of the target does not fail. *)
Theorem processNamespaceFile_succeeds_exactly
    (sourceLanguageDir targetLanguageDir file : string) (w : World) :
  (exists w', processNamespaceFile env sourceLanguageDir targetLanguageDir file w
              = Returned true w')
  <-> (exists sourceContent translated w1 n,
          fs w !! getFilePath sourceLanguageDir file = Some (Doc sourceContent)
          /\ translateJson env sourceContent (pathBasename targetLanguageDir) w
             = Returned translated w1
          /\ objectKeysLength translated = Some (S n)
          /\ writeFails env (getFilePath targetLanguageDir file) = false).
Proof.
  rewrite processNamespaceFile_unfold. split.
  - intros (w' & Hcall).
    destruct (fs w !! getFilePath sourceLanguageDir file) as [[|sourceContent]|];
      try discriminate.
    destruct (translateJson_returns env sourceContent (pathBasename targetLanguageDir) w)
      as (translated & w1 & Hadapter & _).
    rewrite Hadapter in Hcall.
    destruct (objectKeysLength translated) as [[|n]|] eqn:Hkeys; try discriminate.
    destruct (writeFails env _) eqn:Hwrite; try discriminate.
    exists sourceContent, translated, w1, n. auto.
  - intros (sourceContent & translated & w1 & n & -> & -> & -> & ->). eauto.
Qed.

(** X13. A source that exists but cannot be read as JSON is a silent
    failure: [false] is returned, no request is sent and nothing at all
    changes. *)
Theorem unreadable_source_is_skipped
    (sourceLanguageDir targetLanguageDir file : string) (w : World) :
  fs w !! getFilePath sourceLanguageDir file = Some Unreadable ->
  processNamespaceFile env sourceLanguageDir targetLanguageDir file w = Returned false w.
Proof.
  intros Hsource. rewrite processNamespaceFile_unfold, Hsource. reflexivity.
Qed.

End FurtherBehaviour.

(** ** Passes and runs, continued *)

Section FurtherRuns.
Context {path : PathModule} {strings : StringModule}.
Variable env : Env.

(** A property of two worlds that every turn of a loop keeps is kept by
    the loop, however it ends. *)
Lemma forEach_preserves {A} (R : World -> World -> Prop) (body : A -> M unit) items :
  (forall w, R w w) ->
  (forall a b c, R a b -> R b c -> R a c) ->
  (forall x w, R w (finalWorld (body x w))) ->
  forall w, R w (finalWorld (forEach items body w)).
Proof.
  intros Hrefl Htrans Hstep. induction items as [|x items IH]; intros w.
  - apply Hrefl.
  - rewrite forEach_cons. pose proof (Hstep x w) as Hx.
    destruct (body x w) as [[] w1|e w1|c w1|w1]; simpl in *; try exact Hx.
    apply (Htrans _ _ _ Hx (IH w1)).
Qed.

Lemma translateJson_ensured jsonObject targetLang w :
  ensured (finalWorld (translateJson env jsonObject targetLang w)) = ensured w.
Proof.
  unfold translateJson, bind, gets, modify, log, ret. simpl.
  destruct (service env _ _); reflexivity.
Qed.

(** The directories made sure of are those of [fs.ensureDir]: the loop of
    [processLocale] adds none. *)
Lemma processLocaleFile_ensured sourceLanguageDir targetLanguageDir targetLanguage file w :
  ensured (finalWorld (processLocaleFile env sourceLanguageDir targetLanguageDir targetLanguage
                         file w))
  = ensured w.
Proof.
  rewrite processLocaleFile_unfold.
  destruct (showCombinedProgress_cases targetLanguage (replaceFirst ".json" EmptyString file) w)
    as [-> | ->]; [|reflexivity].
  destruct (processNamespaceFile_returns env sourceLanguageDir targetLanguageDir file w)
    as (success & w' & Hcall & _).
  rewrite (countNamespaceFile_unfold _ _ _ _ _ _ _ Hcall). simpl.
  revert Hcall. rewrite processNamespaceFile_unfold.
  destruct (fs w !! getFilePath sourceLanguageDir file) as [[|sourceContent]|];
    try (intros [= _ <-]; reflexivity).
  pose proof (translateJson_ensured sourceContent (pathBasename targetLanguageDir) w) as Hsame.
  destruct (translateJson_returns env sourceContent (pathBasename targetLanguageDir) w)
    as (translated & w1 & Htranslated & _).
  rewrite Htranslated in *. simpl in Hsame.
  destruct (objectKeysLength translated) as [[|n]|]; try (intros [= _ <-]; exact Hsame).
  destruct (writeFails env _); intros [= _ <-]; exact Hsame.
Qed.

Lemma processLocale_loop_ensured sourceLanguageDir targetLanguageDir targetLanguage files w :
  ensured (finalWorld (forEach files (processLocaleFile env sourceLanguageDir targetLanguageDir
                                        targetLanguage) w))
  = ensured w.
Proof.
  revert w.
  apply (forEach_preserves (fun before after => ensured after = ensured before)).
  - reflexivity.
  - intros a b c Hab Hbc. rewrite Hbc. exact Hab.
  - intros file w. apply processLocaleFile_ensured.
Qed.

(** X14. A pass of [processLocale] never exits and always settles, in one
    of three ways. The target directory cannot be made (a file stands in
    its place, or [fs.ensureDir] is refused): the rejection is thrown
    with nothing counted and nothing changed. Or the directory is made
    and the pass returns, having counted every namespace it walks exactly
    once, and reports whether the completed namespaces equal their total.
    Or the directory is made and the pass stops at a progress line that
    cannot be drawn, having counted fewer. The language counters and the
    namespace total are never touched. *)
Theorem processLocale_pass
    (cfg : Config) (source target : string) (requested : option (list string)) (w : World) :
  (exists success w',
      processLocale env cfg source target requested w = Returned success w'
      /\ fs w !! pathJoin (directory cfg) target = None
      /\ ensureDirFails env (pathJoin (directory cfg) target) = false
      /\ In (pathJoin (directory cfg) target) (ensured w')
      /\ counted (length (localeNamespaces cfg requested)) (stats w) (stats w')
      /\ success = Nat.eqb (completed (namespaceStats (stats w')))
                           (total (namespaceStats (stats w'))))
  \/ (exists k w',
         processLocale env cfg source target requested w = Thrown rangeError w'
         /\ fs w !! pathJoin (directory cfg) target = None
         /\ ensureDirFails env (pathJoin (directory cfg) target) = false
         /\ k < length (localeNamespaces cfg requested)
         /\ counted k (stats w) (stats w'))
  \/ (processLocale env cfg source target requested w = Thrown ensureDirError w
      /\ (is_Some (fs w !! pathJoin (directory cfg) target)
          \/ ensureDirFails env (pathJoin (directory cfg) target) = true)).
Proof.
  rewrite processLocale_unfold.
  destruct (ensureDir_cases env (pathJoin (directory cfg) target) w)
    as [(Hfree & Hallowed & ->) | (Hcause & ->)]; [|right; right; auto].
  pose proof (processLocale_loop_ensured (pathJoin (directory cfg) source)
                (pathJoin (directory cfg) target) target
                (map (fun ns => ns ++ ".json") (localeNamespaces cfg requested))
                (madeSure (pathJoin (directory cfg) target) w)) as Hensured.
  destruct (processLocale_loop env (pathJoin (directory cfg) source)
              (pathJoin (directory cfg) target) target
              (map (fun ns => ns ++ ".json") (localeNamespaces cfg requested))
              (madeSure (pathJoin (directory cfg) target) w))
    as [(w' & Hloop & Hcounted) | (k & w' & Hloop & Hk & Hcounted)];
    rewrite Hloop in *; rewrite length_map in *; simpl in Hcounted, Hensured.
  - left. eexists _, _. split; [reflexivity|]. conjs; auto.
    rewrite Hensured. left. reflexivity.
  - right. left. exists k, w'. auto.
Qed.

(** X15. A language that is not configured is counted as failed and
    nothing else happens: no file is read or written, no request is sent
    and the namespace counters stay. *)
Theorem unconfigured_language_is_only_counted
    (cfg : Config) (opts : Options) (lang : string) (w : World) :
  includes (languages cfg) lang = false ->
  exists w',
    translateLanguage env cfg opts lang w = Returned tt w'
    /\ languageStats (stats w') = bumpFailed (languageStats (stats w))
    /\ namespaceStats (stats w') = namespaceStats (stats w)
    /\ fs w' = fs w
    /\ requests w' = requests w.
Proof.
  intros Hunsupported. unfold translateLanguage. rewrite Hunsupported. simpl. js.
  eexists. split; [reflexivity|]. conjs; reflexivity.
Qed.

(** X16. Without [--language] the targets are exactly the configured
    languages with every occurrence of the source language removed, in
    their order: a language is a target if and only if it is configured
    and is not the source language. *)
Theorem default_targets_exclude_source (cfg : Config) (opts : Options) :
  language opts = EmptyString ->
  languagesToTranslate cfg opts
  = List.remove String.string_dec (sourceLanguage cfg) (languages cfg)
  /\ (forall lang,
        In lang (languagesToTranslate cfg opts)
        <-> In lang (languages cfg) /\ lang <> sourceLanguage cfg)
  /\ Forall (fun lang => lang <> sourceLanguage cfg /\ includes (languages cfg) lang = true)
            (languagesToTranslate cfg opts).
Proof.
  intros Hnone. unfold languagesToTranslate. rewrite Hnone. simpl.
  split; [|split].
  - induction (languages cfg) as [|lang rest IH]; simpl; [reflexivity|].
    destruct (String.string_dec (sourceLanguage cfg) lang) as [<- | Hother].
    + rewrite String.eqb_refl. simpl. exact IH.
    + assert (Hneq : String.eqb lang (sourceLanguage cfg) = false)
        by (apply String.eqb_neq; congruence).
      rewrite Hneq. simpl. rewrite IH. reflexivity.
  - intros lang. rewrite filter_In, negb_true_iff, String.eqb_neq. tauto.
  - apply List.Forall_forall. intros lang Hin. apply filter_In in Hin.
    destruct Hin as (Hin & Hother). split.
    + apply negb_true_iff, String.eqb_neq in Hother. exact Hother.
    + apply includes_In. exact Hin.
Qed.

(** *** Invariants of the two loops *)

Lemma writesJsonOnly_refl w : writesJsonOnly w w.
Proof. intros p. left. reflexivity. Qed.

Lemma writesJsonOnly_trans a b c :
  writesJsonOnly a b -> writesJsonOnly b c -> writesJsonOnly a c.
Proof.
  intros Hab Hbc p. destruct (Hbc p) as [Hsame | Hnew]; [|right; exact Hnew].
  rewrite Hsame. apply Hab.
Qed.

Lemma writesJsonOnly_same w w' : fs w' = fs w -> writesJsonOnly w w'.
Proof. intros Hfiles p. left. rewrite Hfiles. reflexivity. Qed.

Lemma requestsAccounted_refl w : requestsAccounted w w.
Proof. unfold requestsAccounted. conjs; try lia. exists 0. lia. Qed.

Lemma requestsAccounted_trans a b c :
  requestsAccounted a b -> requestsAccounted b c -> requestsAccounted a c.
Proof.
  unfold requestsAccounted.
  intros (Hc1 & Hf1 & d1 & Hl1 & Hlo1 & Hhi1) (Hc2 & Hf2 & d2 & Hl2 & Hlo2 & Hhi2).
  conjs; try lia. exists (d1 + d2). lia.
Qed.

Lemma requestsAccounted_same w w' :
  namespaceStats (stats w') = namespaceStats (stats w) ->
  requests w' = requests w ->
  requestsAccounted w w'.
Proof.
  intros Hn Hr. unfold requestsAccounted. rewrite Hn, Hr.
  conjs; try lia. exists 0. lia.
Qed.

Lemma requestsAccounted_counters w w' :
  completed (namespaceStats (stats w')) = completed (namespaceStats (stats w)) ->
  failed (namespaceStats (stats w')) = failed (namespaceStats (stats w)) ->
  requests w' = requests w ->
  requestsAccounted w w'.
Proof.
  intros Hc Hf Hr. unfold requestsAccounted. rewrite Hc, Hf, Hr.
  conjs; try lia. exists 0. lia.
Qed.

(** A successful file costs exactly one request; a failed one, one at
    most. *)
Lemma processNamespaceFile_requests sourceLanguageDir targetLanguageDir file w success w' :
  processNamespaceFile env sourceLanguageDir targetLanguageDir file w = Returned success w' ->
  stats w' = stats w
  /\ writesJsonOnly w w'
  /\ (length (requests w') = S (length (requests w))
      \/ (success = false /\ length (requests w') = length (requests w))).
Proof.
  rewrite processNamespaceFile_unfold.
  destruct (fs w !! getFilePath sourceLanguageDir file) as [[|sourceContent]|];
    try (intros [= <- <-]; conjs; auto using writesJsonOnly_refl; fail).
  destruct (translateJson_returns env sourceContent (pathBasename targetLanguageDir) w)
    as (translated & w1 & -> & Hstats & Hfiles & Hsent).
  assert (Hone : length (requests w1) = S (length (requests w)))
    by (rewrite Hsent; reflexivity).
  destruct (objectKeysLength translated) as [[|n]|];
    try (intros [= <- <-]; conjs; auto using writesJsonOnly_same; fail).
  destruct (writeFails env _); intros [= <- <-];
    conjs; auto using writesJsonOnly_same.
  intros p. cbn [fs writeFile].
  destruct (decide (getFilePath targetLanguageDir file = p)) as [<- | Hother].
  - right. split; [apply getFilePath_endsWith|].
    exists translated. apply lookup_insert_eq.
  - left. rewrite lookup_insert_ne, Hfiles; auto.
Qed.

Lemma processLocaleFile_invariants sourceLanguageDir targetLanguageDir targetLanguage file w :
  writesJsonOnly w
    (finalWorld (processLocaleFile env sourceLanguageDir targetLanguageDir targetLanguage file w))
  /\ requestsAccounted w
       (finalWorld (processLocaleFile env sourceLanguageDir targetLanguageDir targetLanguage
                      file w)).
Proof.
  rewrite processLocaleFile_unfold.
  destruct (showCombinedProgress_cases targetLanguage (replaceFirst ".json" EmptyString file) w)
    as [-> | ->]; [|split; [apply writesJsonOnly_refl | apply requestsAccounted_refl]].
  destruct (processNamespaceFile_returns env sourceLanguageDir targetLanguageDir file w)
    as (success & w' & Hcall & _).
  rewrite (countNamespaceFile_unfold _ _ _ _ _ _ _ Hcall).
  destruct (processNamespaceFile_requests _ _ _ _ _ _ Hcall) as (Hstats & Hfiles & Hsent).
  split; [exact Hfiles|].
  unfold requestsAccounted. simpl. rewrite Hstats.
  destruct Hsent as [Hone | (-> & Hnone)].
  - destruct success; simpl; (conjs; try lia); exists 1; lia.
  - simpl. conjs; try lia. exists 0. lia.
Qed.

Lemma translateLanguage_invariants cfg opts lang w :
  writesJsonOnly w (finalWorld (translateLanguage env cfg opts lang w))
  /\ requestsAccounted w (finalWorld (translateLanguage env cfg opts lang w))
  /\ languagesAtMost 1 (stats w) (stats (finalWorld (translateLanguage env cfg opts lang w)))
  /\ (translateLanguage env cfg opts lang w
      = Returned tt (finalWorld (translateLanguage env cfg opts lang w))
      \/ translateLanguage env cfg opts lang w
         = Thrown rangeError (finalWorld (translateLanguage env cfg opts lang w))
      \/ translateLanguage env cfg opts lang w
         = Thrown ensureDirError (finalWorld (translateLanguage env cfg opts lang w))).
Proof.
  destruct (includes (languages cfg) lang) eqn:Hsupported.
  - destruct (translateLanguage_cases env cfg opts lang w Hsupported)
      as [(_ & ->) | (_ & _ & ->)].
    { simpl. split; [apply writesJsonOnly_refl|]. split; [apply requestsAccounted_refl|].
      split; [unfold languagesAtMost; conjs; lia | auto]. }
    set (files := map (fun ns => ns ++ ".json") (localeNamespaces cfg (namespace opts))).
    set (body := processLocaleFile env (pathJoin (directory cfg) (sourceLanguage cfg))
                   (pathJoin (directory cfg) lang) lang).
    set (w0 := madeSure (pathJoin (directory cfg) lang) w).
    assert (Hfiles : writesJsonOnly w (finalWorld (forEach files body w0))).
    { apply (writesJsonOnly_trans w w0); [apply writesJsonOnly_same; reflexivity|].
      apply forEach_preserves;
        [apply writesJsonOnly_refl | apply writesJsonOnly_trans
        | intros; apply processLocaleFile_invariants]. }
    assert (Hsent : requestsAccounted w (finalWorld (forEach files body w0))).
    { apply (requestsAccounted_trans w w0); [apply requestsAccounted_same; reflexivity|].
      apply forEach_preserves;
        [apply requestsAccounted_refl | apply requestsAccounted_trans
        | intros; apply processLocaleFile_invariants]. }
    destruct (processLocale_loop env (pathJoin (directory cfg) (sourceLanguage cfg))
                (pathJoin (directory cfg) lang) lang files w0)
      as [(w1 & Hloop & Hl & _) | (k & w1 & Hloop & _ & Hl & _)];
      fold body in Hloop; rewrite Hloop in *; simpl in Hfiles, Hsent, Hl.
    + rewrite showCombinedProgress_finalWorld.
      split; [apply (writesJsonOnly_trans _ _ _ Hfiles); apply writesJsonOnly_same; reflexivity|].
      split; [apply (requestsAccounted_trans _ _ _ Hsent);
              apply requestsAccounted_same; reflexivity|].
      split.
      * unfold languagesAtMost. simpl. rewrite Hl.
        destruct (Nat.eqb _ _); simpl; conjs; lia.
      * match goal with
        | |- context [showCombinedProgress lang "completed" ?x] =>
            destruct (showCombinedProgress_cases lang "completed" x) as [-> | ->]
        end; auto.
    + simpl. split; [exact Hfiles|]. split; [exact Hsent|].
      split; [|right; left; reflexivity].
      unfold languagesAtMost. rewrite Hl. conjs; lia.
  - destruct (translateLanguage_unsupported env cfg opts lang w Hsupported)
      as (w' & Hturn & Hn & Hl).
    assert (Hsame : fs w' = fs w /\ requests w' = requests w).
    { revert Hturn. unfold translateLanguage. rewrite Hsupported. simpl. js.
      intros [= <-]. split; reflexivity. }
    rewrite Hturn. simpl.
    split; [apply writesJsonOnly_same; tauto|].
    split; [apply requestsAccounted_same; tauto|].
    split; [|left; reflexivity].
    unfold languagesAtMost. rewrite Hl. simpl. conjs; lia.
Qed.

Lemma languages_loop_invariants cfg opts targets :
  forall w,
    writesJsonOnly w (finalWorld (forEach targets (translateLanguage env cfg opts) w))
    /\ requestsAccounted w (finalWorld (forEach targets (translateLanguage env cfg opts) w))
    /\ languagesAtMost (length targets) (stats w)
         (stats (finalWorld (forEach targets (translateLanguage env cfg opts) w)))
    /\ (forEach targets (translateLanguage env cfg opts) w
        = Returned tt (finalWorld (forEach targets (translateLanguage env cfg opts) w))
        \/ forEach targets (translateLanguage env cfg opts) w
           = Thrown rangeError
               (finalWorld (forEach targets (translateLanguage env cfg opts) w))
        \/ forEach targets (translateLanguage env cfg opts) w
           = Thrown ensureDirError
               (finalWorld (forEach targets (translateLanguage env cfg opts) w))).
Proof.
  induction targets as [|lang targets IH]; intros w.
  - simpl. split; [apply writesJsonOnly_refl|]. split; [apply requestsAccounted_refl|].
    split; [unfold languagesAtMost; conjs; lia | left; reflexivity].
  - rewrite forEach_cons.
    destruct (translateLanguage_invariants cfg opts lang w)
      as (Hf & Hr & Hl & [Hout | [Hout | Hout]]);
      rewrite Hout in *; simpl in Hf, Hr, Hl.
    + destruct (IH (finalWorld (translateLanguage env cfg opts lang w)))
        as (Hf' & Hr' & Hl' & Hout').
      split; [apply (writesJsonOnly_trans _ _ _ Hf Hf')|].
      split; [apply (requestsAccounted_trans _ _ _ Hr Hr')|].
      split; [|exact Hout'].
      unfold languagesAtMost in *. simpl. conjs; lia.
    + simpl. split; [exact Hf|]. split; [exact Hr|]. split; [|right; left; reflexivity].
      unfold languagesAtMost in *. simpl. conjs; lia.
    + simpl. split; [exact Hf|]. split; [exact Hr|]. split; [|right; right; reflexivity].
      unfold languagesAtMost in *. simpl. conjs; lia.
Qed.

(** *** Whole runs *)

Lemma confirmInvalid_accepted cfg invalidNamespaces w :
  invalidNamespaces = []
  \/ (exists typed,
         answer env = Some typed
         /\ (toLowerCase (trim typed) = "y" \/ toLowerCase (trim typed) = "yes")) ->
  exists w', quiet w w' /\ confirmInvalid env cfg invalidNamespaces w = Returned tt w'.
Proof.
  intros Hok. unfold confirmInvalid, promptUser.
  destruct invalidNamespaces as [|ns rest].
  - exists w. split; [unfold quiet; auto | reflexivity].
  - destruct Hok as [Hnone | (typed & Htyped & [Hyes | Hyes])]; [discriminate | |];
      js; rewrite Htyped, Hyes; simpl; (eexists; split; [|reflexivity]); unfold quiet; auto.
Qed.

(** At the end of the input the gate stops at its question. *)
Lemma confirmInvalid_unanswered cfg invalidNamespaces w :
  invalidNamespaces <> [] ->
  answer env = None ->
  exists w', confirmInvalid env cfg invalidNamespaces w = Unsettled w' /\ quiet w w'.
Proof.
  intros Hsome Hnone. unfold confirmInvalid, promptUser.
  destruct invalidNamespaces as [|ns rest]; [congruence|]. js. rewrite Hnone.
  eexists. split; [reflexivity|]. unfold quiet; auto.
Qed.

Lemma confirmInvalid_unsettled cfg invalidNamespaces w w' :
  confirmInvalid env cfg invalidNamespaces w = Unsettled w' ->
  invalidNamespaces <> [] /\ answer env = None.
Proof.
  unfold confirmInvalid, promptUser. destruct invalidNamespaces as [|ns rest].
  - discriminate.
  - js. destruct (answer env) as [typed|]; simpl.
    + destruct (negb _ && negb _); discriminate.
    + intros _. split; [discriminate | reflexivity].
Qed.

Lemma run_unconfigured opts message w :
  configFile env (config opts) = inr message ->
  run env opts w = Exited 1 (printed ("Error loading project config: " ++ message) w).
Proof.
  intros Hcfg. unfold run, loadProjectConfig. rewrite Hcfg. reflexivity.
Qed.

(** X17. When the configuration file cannot be read, [run] logs the error
    and exits with status 1 before anything else: counters, files and
    requests are as they were. *)
Theorem unreadable_config_is_fatal (opts : Options) (message : string) (w : World) :
  configFile env (config opts) = inr message ->
  exists w',
    run env opts w = Exited 1 w'
    /\ console w' = ("Error loading project config: " ++ message) :: console w
    /\ stats w' = stats w
    /\ fs w' = fs w
    /\ requests w' = requests w.
Proof.
  intros Hcfg. rewrite (run_unconfigured _ _ _ Hcfg).
  eexists. split; [reflexivity|]. conjs; reflexivity.
Qed.

(** The world [run] ends in, whatever the outcome. *)
Lemma run_final_invariants opts w :
  writesJsonOnly w (finalWorld (run env opts w))
  /\ requestsAccounted w (finalWorld (run env opts w))
  /\ completed (languageStats (stats (finalWorld (run env opts w))))
     + failed (languageStats (stats (finalWorld (run env opts w))))
     <= completed (languageStats (stats w)) + failed (languageStats (stats w))
        + total (languageStats (stats (finalWorld (run env opts w))))
  /\ (exists w', run env opts w = Returned tt w'
                 \/ run env opts w = Thrown rangeError w'
                 \/ run env opts w = Thrown ensureDirError w'
                 \/ run env opts w = Exited 0 w'
                 \/ run env opts w = Exited 1 w'
                 \/ (run env opts w = Unsettled w' /\ answer env = None)).
Proof.
  destruct (configFile env (config opts)) as [cfg | message] eqn:Hcfg.
  - destruct (run_stages env opts cfg w Hcfg) as (w1 & Hstats & Hfiles & Hsent & Hrest).
    assert (Hstopped :
              forall w2, quiet w1 w2 ->
                writesJsonOnly w w2 /\ requestsAccounted w w2
                /\ completed (languageStats (stats w2)) + failed (languageStats (stats w2))
                   <= completed (languageStats (stats w)) + failed (languageStats (stats w))
                      + total (languageStats (stats w2))).
    { intros w2 (Hs2 & Hf2 & Hr2).
      split; [apply writesJsonOnly_same; congruence|].
      split; [apply requestsAccounted_counters;
              [rewrite Hs2, Hstats; reflexivity | rewrite Hs2, Hstats; reflexivity
              | congruence]|].
      rewrite Hs2, Hstats. simpl. lia. }
    destruct (confirmInvalid_outcome env cfg
                (errors (validateNamespaces cfg (namespace opts))) w1)
      as (w2 & Hquiet & [Hgate | [Hgate | Hgate]]); rewrite Hgate in Hrest.
    + destruct Hquiet as (Hs2 & Hf2 & Hr2).
      destruct Hrest as (w3 & (Hs3 & Hf3 & Hr3) & Hrest).
      destruct (languages_loop_invariants cfg opts (languagesToTranslate cfg opts) w3)
        as (Hwrites & Haccounted & (Hlt & _ & _ & Hlsum) & [Hout | [Hout | Hout]]);
        rewrite Hout in Hrest.
      * destruct Hrest as (w5 & (Hs5 & Hf5 & Hr5) & Hend). rewrite Hend. simpl.
        split; [intros p; rewrite Hf5, <- Hfiles, <- Hf2, <- Hf3; apply Hwrites|].
        split.
        { destruct Haccounted as (Hc & Hf & d & Hd & Hlo & Hhi).
          unfold requestsAccounted.
          rewrite Hs5, Hr5. rewrite Hs3, Hs2, Hstats, Hr3, Hr2, Hsent in *.
          simpl in *. conjs; try lia. exists d. lia. }
        split; [|eauto].
        rewrite Hs5. rewrite Hs3, Hs2, Hstats in *. simpl in *. lia.
      * rewrite Hrest. simpl.
        split; [intros p; rewrite <- Hfiles, <- Hf2, <- Hf3; apply Hwrites|].
        split.
        { destruct Haccounted as (Hc & Hf & d & Hd & Hlo & Hhi).
          unfold requestsAccounted.
          rewrite Hs3, Hs2, Hstats, Hr3, Hr2, Hsent in *.
          simpl in *. conjs; try lia. exists d. lia. }
        split; [|eauto].
        rewrite Hs3, Hs2, Hstats in *. simpl in *. lia.
      * rewrite Hrest. simpl.
        split; [intros p; rewrite <- Hfiles, <- Hf2, <- Hf3; apply Hwrites|].
        split.
        { destruct Haccounted as (Hc & Hf & d & Hd & Hlo & Hhi).
          unfold requestsAccounted.
          rewrite Hs3, Hs2, Hstats, Hr3, Hr2, Hsent in *.
          simpl in *. conjs; try lia. exists d. lia. }
        split; [|eauto 6].
        rewrite Hs3, Hs2, Hstats in *. simpl in *. lia.
    + rewrite Hrest. simpl.
      destruct (Hstopped w2 Hquiet) as (Hw & Hr & Hl). conjs; eauto 8.
    + rewrite Hrest. simpl.
      destruct (Hstopped w2 Hquiet) as (Hw & Hr & Hl).
      destruct (confirmInvalid_unsettled _ _ _ _ Hgate) as (_ & Hnone).
      conjs; eauto 10.
  - rewrite (run_unconfigured _ _ _ Hcfg). simpl.
    split; [apply writesJsonOnly_same; reflexivity|].
    split; [apply requestsAccounted_same; reflexivity|].
    split; [lia | eauto 8].
Qed.

(** X18. Whatever the outcome of a run, no file is removed and no file is
    changed except at paths ending in [.json], which then hold a JSON
    document. *)
Theorem run_only_writes_json_documents
    (opts : Options) (files : gmap string FileData) (p : string) :
  fs (finalWorld (run env opts (newLocaliser files))) !! p = files !! p
  \/ (endsWith p ".json" = true
      /\ exists content,
          fs (finalWorld (run env opts (newLocaliser files))) !! p = Some (Doc content)).
Proof.
  destruct (run_final_invariants opts (newLocaliser files)) as (Hwrites & _).
  apply (Hwrites p).
Qed.

(** X19. Whatever the outcome of a run, the requests sent to the service
    are at least as many as the completed namespaces and at most as many
    as the completed and failed namespaces together: one request per
    translated file, never a second one for the same file. *)
Theorem requests_match_counters (opts : Options) (files : gmap string FileData) :
  completed (namespaceStats (stats (finalWorld (run env opts (newLocaliser files)))))
  <= length (requests (finalWorld (run env opts (newLocaliser files))))
  /\ length (requests (finalWorld (run env opts (newLocaliser files))))
     <= completed (namespaceStats (stats (finalWorld (run env opts (newLocaliser files)))))
        + failed (namespaceStats (stats (finalWorld (run env opts (newLocaliser files))))).
Proof.
  destruct (run_final_invariants opts (newLocaliser files))
    as (_ & (_ & _ & d & Hd & Hlo & Hhi) & _).
  simpl in *. lia.
Qed.

(** X20. Whatever the outcome of a run, the language counters never
    overshoot: completed + failed is at most the total. *)
Theorem language_counters_within_total (opts : Options) (files : gmap string FileData) :
  completed (languageStats (stats (finalWorld (run env opts (newLocaliser files)))))
  + failed (languageStats (stats (finalWorld (run env opts (newLocaliser files)))))
  <= total (languageStats (stats (finalWorld (run env opts (newLocaliser files))))).
Proof.
  destruct (run_final_invariants opts (newLocaliser files)) as (_ & _ & Hlang & _).
  simpl in *. lia.
Qed.

(** X21. The script never lets an exception escape. It returns, or exits
    with status 0 or 1, or, only when nothing is typed at the prompt (the
    input is at its end), stops for good at the awaited answer: nothing
    after the [await] runs and Node ends the process with status 0. *)
Theorem main_outcomes (opts : Options) (files : gmap string FileData) :
  (forall e w, main env opts files <> Thrown e w)
  /\ exists w,
      main env opts files = Returned tt w
      \/ main env opts files = Exited 0 w
      \/ main env opts files = Exited 1 w
      \/ (main env opts files = Unsettled w /\ answer env = None).
Proof.
  unfold main.
  destruct (run_final_invariants opts (newLocaliser files))
    as (_ & _ & _ & w & [-> | [-> | [-> | [-> | [-> | (-> & Hnone)]]]]]);
    (split; [discriminate | eauto 8]).
Qed.

(** X22. With the configuration loaded, [run] exits with status 0 exactly
    when a requested namespace is not configured, a line is typed at the
    prompt and that line, after [trim] and [toLowerCase], is neither [y]
    nor [yes]; it exits with no other status. *)
Theorem run_exits_exactly_when_declined (opts : Options) (cfg : Config) (w : World) :
  configFile env (config opts) = inl cfg ->
  ((exists w', run env opts w = Exited 0 w')
   <-> (errors (validateNamespaces cfg (namespace opts)) <> []
        /\ exists typed,
            answer env = Some typed
            /\ toLowerCase (trim typed) <> "y"
            /\ toLowerCase (trim typed) <> "yes"))
  /\ (forall code w', run env opts w = Exited code w' -> code = 0%Z).
Proof.
  intros Hcfg.
  destruct (run_stages env opts cfg w Hcfg) as (w1 & _ & _ & _ & Hrest).
  assert (Hcontinued :
            forall w2,
              confirmInvalid env cfg (errors (validateNamespaces cfg (namespace opts))) w1
              = Returned tt w2 ->
              forall code w', run env opts w <> Exited code w').
  { intros w2 Hgate code w' Hrun. rewrite Hgate in Hrest.
    destruct Hrest as (w3 & _ & Hrest).
    destruct (languages_loop_invariants cfg opts (languagesToTranslate cfg opts) w3)
      as (_ & _ & _ & [Hout | [Hout | Hout]]); rewrite Hout in Hrest.
    - destruct Hrest as (w5 & _ & Hend). congruence.
    - congruence.
    - congruence. }
  split; [split|].
  - intros (w' & Hrun).
    destruct (errors (validateNamespaces cfg (namespace opts))) as [|ns rest] eqn:Herrors.
    + destruct (confirmInvalid_accepted cfg [] w1) as (w2 & _ & Hgate); [auto|].
      exfalso. apply (Hcontinued w2 Hgate _ _ Hrun).
    + split; [discriminate|].
      destruct (answer env) as [typed|] eqn:Htyped.
      * exists typed. split; [reflexivity|].
        split; intros Hyes;
          (destruct (confirmInvalid_accepted cfg (ns :: rest) w1) as (w2 & _ & Hgate);
           [right; exists typed; auto|]; apply (Hcontinued w2 Hgate _ _ Hrun)).
      * exfalso.
        destruct (confirmInvalid_unanswered cfg (ns :: rest) w1) as (w2 & Hgate & _);
          [discriminate | exact Htyped |].
        rewrite Hgate in Hrest. congruence.
  - intros (Herrors & typed & Htyped & Hy & Hyes).
    destruct (confirmInvalid_declined env cfg _ typed w1 Herrors Htyped Hy Hyes)
      as (w2 & _ & Hgate).
    rewrite Hgate in Hrest. eauto.
  - intros code w' Hrun.
    destruct (confirmInvalid_outcome env cfg
                (errors (validateNamespaces cfg (namespace opts))) w1)
      as (w2 & _ & [Hgate | [Hgate | Hgate]]).
    + exfalso. apply (Hcontinued w2 Hgate _ _ Hrun).
    + rewrite Hgate in Hrest. congruence.
    + rewrite Hgate in Hrest. congruence.
Qed.

(** X23. When no requested namespace is absent from the configuration the
    user is never asked: the whole run is the same whatever would have
    been typed, or if nothing could be typed at all. *)
Theorem answer_is_unused_without_invalid_names
    (opts : Options) (cfg : Config) (typed : option string) (w : World) :
  configFile env (config opts) = inl cfg ->
  errors (validateNamespaces cfg (namespace opts)) = [] ->
  run (withAnswer typed env) opts w = run env opts w.
Proof.
  intros Hcfg Hvalid. unfold run, loadProjectConfig.
  change (configFile (withAnswer typed env) (config opts))
    with (configFile env (config opts)).
  rewrite Hcfg. cbv beta iota delta [bind ret]. rewrite Hvalid. reflexivity.
Qed.

(** X4. [promptUser] resolves only in the callback of [rl.question]. When
    the input is at its end, a run stops for good exactly when a requested
    namespace is not configured: the question is the last thing printed,
    no file has changed, no request was sent, nothing was counted, and the
    handler of the last lines of the script never runs. *)
Theorem unanswered_prompt_never_settles
    (opts : Options) (cfg : Config) (files : gmap string FileData) :
  configFile env (config opts) = inl cfg ->
  answer env = None ->
  ((exists w, run env opts (newLocaliser files) = Unsettled w)
   <-> errors (validateNamespaces cfg (namespace opts)) <> [])
  /\ (forall w,
        run env opts (newLocaliser files) = Unsettled w ->
        main env opts files = Unsettled w
        /\ (exists earlier,
              console w = "❓ Continue with valid namespaces only? (y/n): " :: earlier)
        /\ fs w = files
        /\ requests w = []
        /\ ensured w = []
        /\ completed (languageStats (stats w)) = 0
        /\ failed (languageStats (stats w)) = 0
        /\ completed (namespaceStats (stats w)) = 0
        /\ failed (namespaceStats (stats w)) = 0).
Proof.
  intros Hcfg Hnone.
  destruct (run_stages env opts cfg (newLocaliser files) Hcfg)
    as (w1 & Hstats & Hfiles & Hsent & Hrest).
  destruct (errors (validateNamespaces cfg (namespace opts))) as [|ns rest] eqn:Herrors.
  - assert (Hsettles : forall w, run env opts (newLocaliser files) <> Unsettled w).
    { intros w Hrun.
      destruct (confirmInvalid_accepted cfg [] w1) as (w2 & _ & Hgate); [auto|].
      rewrite Hgate in Hrest. destruct Hrest as (w3 & _ & Hrest).
      destruct (languages_loop_invariants cfg opts (languagesToTranslate cfg opts) w3)
        as (_ & _ & _ & [Hout | [Hout | Hout]]); rewrite Hout in Hrest.
      - destruct Hrest as (w5 & _ & Hend). congruence.
      - congruence.
      - congruence. }
    split; [split|].
    + intros (w & Hrun). exfalso. apply (Hsettles w Hrun).
    + intros Hsome. congruence.
    + intros w Hrun. exfalso. apply (Hsettles w Hrun).
  - assert (Hrun : exists w0,
              run env opts (newLocaliser files) = Unsettled w0
              /\ (exists earlier,
                    console w0 = "❓ Continue with valid namespaces only? (y/n): " :: earlier)
              /\ fs w0 = files /\ requests w0 = [] /\ ensured w0 = []
              /\ completed (languageStats (stats w0)) = 0
              /\ failed (languageStats (stats w0)) = 0
              /\ completed (namespaceStats (stats w0)) = 0
              /\ failed (namespaceStats (stats w0)) = 0).
    { unfold run, loadProjectConfig. rewrite Hcfg. js. rewrite Herrors.
      unfold confirmInvalid, promptUser. js. rewrite Hnone.
      eexists. split; [reflexivity|]. simpl. conjs; eauto. }
    destruct Hrun as (w0 & Hrun & Hworld).
    split; [split; [discriminate | eauto]|].
    intros w Hw. unfold main. rewrite Hw. split; [reflexivity|].
    rewrite Hrun in Hw. injection Hw as <-. exact Hworld.
Qed.

End FurtherRuns.

(** ** The further properties at the worked inputs *)

Section FurtherWitnesses.
Import Examples.
Local Existing Instance posixPath.
Local Existing Instance asciiStrings.

Lemma validateNamespaces_partitions_witness :
  ["home"; "extra"; "home"] <> []
  /\ valid (validateNamespaces oneTarget (Some ["home"; "extra"; "home"])) = ["home"; "home"]
  /\ errors (validateNamespaces oneTarget (Some ["home"; "extra"; "home"])) = ["extra"].
Proof.
  split; [discriminate|].
  destruct (validateNamespaces_partitions oneTarget ["home"; "extra"; "home"])
    as (-> & -> & _); [discriminate|].
  split; reflexivity.
Defined.

Lemma progressBar_width_witness :
  0 < 3 /\ 2 <= 3
  /\ exists filled remaining,
      progressBar 2 3 = Some (filled, remaining)
      /\ filled + remaining = 15
      /\ (2 = 0 -> filled = 0)
      /\ (2 = 3 -> filled = 15).
Proof.
  split; [lia|]. split; [lia|]. apply (progressBar_width 2 3); lia.
Defined.

Lemma progressBar_fails_exactly_witness :
  0 < 30 /\ 31 * 30 <= 30 * 31 /\ progressBar 31 30 = None /\ progressBar 30 30 <> None.
Proof.
  split; [lia|]. split; [lia|]. split.
  - apply (proj1 (progressBar_fails_exactly 31 30)); lia.
  - intros Hnone. apply (proj1 (progressBar_fails_exactly 30 30)) in Hnone; lia.
Defined.

Lemma failed_file_changes_no_file_witness :
  processNamespaceFile (readOnly oneTarget) "locales/en" "locales/fr" "home.json"
    (newLocaliser homeOnly)
  = Returned false (sent (buildTranslationPrompt greeting "fr") (newLocaliser homeOnly))
  /\ fs (sent (buildTranslationPrompt greeting "fr") (newLocaliser homeOnly))
     = fs (newLocaliser homeOnly)
  /\ stats (sent (buildTranslationPrompt greeting "fr") (newLocaliser homeOnly))
     = stats (newLocaliser homeOnly).
Proof.
  assert (Hcall : processNamespaceFile (readOnly oneTarget) "locales/en" "locales/fr"
                    "home.json" (newLocaliser homeOnly)
                  = Returned false
                      (sent (buildTranslationPrompt greeting "fr") (newLocaliser homeOnly)))
    by (vm_compute; reflexivity).
  split; [exact Hcall|].
  apply (failed_file_changes_no_file (readOnly oneTarget) "locales/en" "locales/fr"
           "home.json" (newLocaliser homeOnly) _ Hcall).
Defined.

Lemma unreadable_source_is_skipped_witness :
  fs (newLocaliser brokenSource) !! getFilePath "locales/en" "home.json" = Some Unreadable
  /\ processNamespaceFile (world oneTarget echo EmptyString) "locales/en" "locales/fr"
       "home.json" (newLocaliser brokenSource)
     = Returned false (newLocaliser brokenSource).
Proof.
  split; [vm_compute; reflexivity|].
  apply (unreadable_source_is_skipped (world oneTarget echo EmptyString)
           "locales/en" "locales/fr" "home.json" (newLocaliser brokenSource)).
  vm_compute; reflexivity.
Defined.

Lemma unconfigured_language_is_only_counted_witness :
  includes (languages oneTarget) "xx" = false
  /\ exists w',
      translateLanguage (world oneTarget echo EmptyString) oneTarget (only "xx") "xx"
        (newLocaliser homeOnly)
      = Returned tt w'
      /\ languageStats (stats w') = bumpFailed (languageStats (stats (newLocaliser homeOnly)))
      /\ namespaceStats (stats w') = namespaceStats (stats (newLocaliser homeOnly))
      /\ fs w' = fs (newLocaliser homeOnly)
      /\ requests w' = requests (newLocaliser homeOnly).
Proof.
  split; [reflexivity|].
  apply (unconfigured_language_is_only_counted (world oneTarget echo EmptyString)
           oneTarget (only "xx") "xx" (newLocaliser homeOnly)).
  reflexivity.
Defined.

Lemma default_targets_exclude_source_witness :
  language plain = EmptyString
  /\ languagesToTranslate (project ["en"; "fr"; "en"; "de"] ["home"]) plain = ["fr"; "de"]
  /\ languagesToTranslate (project ["en"; "fr"; "en"; "de"] ["home"]) plain
     = List.remove String.string_dec
         (sourceLanguage (project ["en"; "fr"; "en"; "de"] ["home"]))
         (languages (project ["en"; "fr"; "en"; "de"] ["home"])).
Proof.
  split; [reflexivity|]. split; [reflexivity|].
  apply (default_targets_exclude_source (project ["en"; "fr"; "en"; "de"] ["home"]) plain).
  reflexivity.
Defined.

Lemma unreadable_config_is_fatal_witness :
  configFile unconfigured (config plain) = inr "ENOENT: no such file or directory"
  /\ exists w',
      run unconfigured plain (newLocaliser homeOnly) = Exited 1 w'
      /\ console w'
         = ("Error loading project config: " ++ "ENOENT: no such file or directory")
             :: console (newLocaliser homeOnly)
      /\ stats w' = stats (newLocaliser homeOnly)
      /\ fs w' = fs (newLocaliser homeOnly)
      /\ requests w' = requests (newLocaliser homeOnly).
Proof.
  split; [reflexivity|].
  apply (unreadable_config_is_fatal unconfigured plain
           "ENOENT: no such file or directory" (newLocaliser homeOnly)).
  reflexivity.
Defined.

Lemma run_exits_exactly_when_declined_witness :
  configFile (world oneTarget echo " YES ") (config (picking "home,extra")) = inl oneTarget
  /\ answer (world oneTarget echo " YES ") = Some " YES "
  /\ toLowerCase (trim " YES ") = "yes"
  /\ ~ (exists w',
          run (world oneTarget echo " YES ") (picking "home,extra") (newLocaliser homeOnly)
          = Exited 0 w').
Proof.
  split; [reflexivity|]. split; [reflexivity|]. split; [reflexivity|].
  intros Hexit.
  apply (proj1 (proj1 (run_exits_exactly_when_declined (world oneTarget echo " YES ")
                         (picking "home,extra") oneTarget (newLocaliser homeOnly) eq_refl)))
    in Hexit.
  destruct Hexit as (_ & typed & [= <-] & _ & Hyes). apply Hyes. reflexivity.
Defined.

Lemma answer_is_unused_without_invalid_names_witness :
  configFile (world oneTarget echo "y") (config plain) = inl oneTarget
  /\ errors (validateNamespaces oneTarget (namespace plain)) = []
  /\ run (withAnswer None (world oneTarget echo "y")) plain (newLocaliser homeOnly)
     = run (world oneTarget echo "y") plain (newLocaliser homeOnly).
Proof.
  split; [reflexivity|]. split; [reflexivity|].
  apply (answer_is_unused_without_invalid_names (world oneTarget echo "y") plain oneTarget
           None (newLocaliser homeOnly)); reflexivity.
Defined.

Lemma unanswered_prompt_never_settles_witness :
  configFile (atEndOfInput oneTarget) (config (picking "home,extra")) = inl oneTarget
  /\ answer (atEndOfInput oneTarget) = None
  /\ errors (validateNamespaces oneTarget (namespace (picking "home,extra"))) = ["extra"]
  /\ exists w,
      run (atEndOfInput oneTarget) (picking "home,extra") (newLocaliser homeOnly) = Unsettled w.
Proof.
  split; [reflexivity|]. split; [reflexivity|]. split; [reflexivity|].
  apply (proj2 (proj1 (unanswered_prompt_never_settles (atEndOfInput oneTarget)
                         (picking "home,extra") oneTarget homeOnly eq_refl eq_refl))).
  discriminate.
Defined.

Lemma run_namespace_accounting_witness :
  run (world twoTargets echo EmptyString) plain (newLocaliser ∅)
  = Returned tt (finalWorld (run (world twoTargets echo EmptyString) plain (newLocaliser ∅)))
  /\ total (namespaceStats (stats (finalWorld
              (run (world twoTargets echo EmptyString) plain (newLocaliser ∅)))))
     = length (valid (validateNamespaces twoTargets (namespace plain)))
  /\ completed (namespaceStats (stats (finalWorld
                  (run (world twoTargets echo EmptyString) plain (newLocaliser ∅)))))
     + failed (namespaceStats (stats (finalWorld
                 (run (world twoTargets echo EmptyString) plain (newLocaliser ∅)))))
     = length (List.filter (includes (languages twoTargets))
                 (languagesToTranslate twoTargets plain))
       * length (localeNamespaces twoTargets (namespace plain)).
Proof.
  assert (Hrun : run (world twoTargets echo EmptyString) plain (newLocaliser ∅)
                 = Returned tt (finalWorld
                     (run (world twoTargets echo EmptyString) plain (newLocaliser ∅))))
    by (vm_compute; reflexivity).
  split; [exact Hrun|].
  apply (run_namespace_accounting (world twoTargets echo EmptyString) plain twoTargets ∅ _
           eq_refl Hrun).
Defined.

(** X26. Three target languages, two namespaces, the source of [about]
    missing: the pairs ([fr], [about]) and ([de], [about]) are counted as
    failed, but the progress line of ([it], [about]) cannot be drawn
    (three completed namespaces under a total of two) and the run ends
    there through the handler of the last lines of the script, with
    status 1: that pair, whose source file does not exist either, is
    never counted. *)
Theorem pair_after_overshoot_is_not_counted :
  languagesToTranslate threeTargetsTwoNamespaces plain = ["fr"; "de"; "it"]
  /\ missingSources homeOnly (pathJoin "locales" "en") ["home.json"; "about.json"]
     = ["about.json"]
  /\ exists w,
      run (world threeTargetsTwoNamespaces echo EmptyString) plain (newLocaliser homeOnly)
      = Thrown rangeError w
      /\ languageStats (stats w) = {| total := 3; completed := 1; failed := 1 |}
      /\ namespaceStats (stats w) = {| total := 2; completed := 3; failed := 2 |}
      /\ fs w !! "locales/it/home.json" = Some (Doc greeting)
      /\ fs w !! "locales/it/about.json" = None
      /\ main (world threeTargetsTwoNamespaces echo EmptyString) plain homeOnly
         = Exited 1 (printed ("<red>Unhandled error: " ++ rangeError ++ "</red>") w).
Proof.
  split; [reflexivity|]. split; [vm_compute; reflexivity|].
  eexists. split; [vm_compute; reflexivity|].
  split; [reflexivity|]. split; [reflexivity|].
  split; [vm_compute; reflexivity|]. split; vm_compute; reflexivity.
Qed.

End FurtherWitnesses.
